(** * Agents and agents with memory: the two tutorial notebooks

    A shallow embedding of
      - docs/getting_started/agents.ipynb
      - docs/examples/memory/agent_with_memory.ipynb

    The notebooks hold three kinds of material, and the development follows
    them in this order:
      - the declaration of [Tool] and the values the cells bind
        ([tools], [prefix], [suffix], [prompt], [memory], ...);
      - the recorded outputs of the executed cells (the text written to
        stdout, with its terminal colour codes, and the value of the cell);
      - calls into the framework ([ZeroShotAgent.create_prompt], [LLMChain],
        [ConversationBufferMemory], [agent.run]), whose code is not part of
        the notebooks.  These are modelled from the description of the agent
        loop and marked as such. *)

From Stdlib Require Import String Ascii List Bool Arith Lia.
Import ListNotations.
Open Scope string_scope.

Set Implicit Arguments.
Set Warnings "-register-all".

(** ** Text *)

Module Str.

(** The three characters of the recorded text that a string literal cannot
    hold directly: line feed, the double quote, and ESC. *)
Definition nl : string := String "010"%char EmptyString.
Definition dq : string := String "034"%char EmptyString.
Definition esc_char : ascii := "027"%char.
Definition esc : string := String esc_char EmptyString.

(** [sgr "32;1"] is the colour sequence ESC [ 32;1 m. *)
Definition sgr (code : string) : string := esc ++ "[" ++ code ++ "m".

(** Python's [''.join(l)]: a notebook stores stdout as a list of lines. *)
Definition join (l : list string) : string := fold_right append EmptyString l.

Fixpoint drop (n : nat) (s : string) : string :=
  match n, s with
  | O, _ => s
  | S _, EmptyString => EmptyString
  | S n', String _ r => drop n' r
  end.

Fixpoint take (n : nat) (s : string) : string :=
  match n, s with
  | O, _ => EmptyString
  | S _, EmptyString => EmptyString
  | S n', String c r => String c (take n' r)
  end.

(** [s.find(sub)] and [sub in s]. *)
Definition find (sub s : string) : option nat := String.index 0 sub s.

Definition contains (sub s : string) : bool :=
  match find sub s with Some _ => true | None => false end.

(** The text that follows the first occurrence of [marker]. *)
Definition text_after (marker s : string) : option string :=
  match find marker s with
  | Some n => Some (drop (n + String.length marker) s)
  | None => None
  end.

(** The text up to the first line feed (all of it when there is none). *)
Fixpoint first_line (s : string) : string :=
  match s with
  | EmptyString => EmptyString
  | String c r => if Ascii.eqb c "010"%char then EmptyString
                  else String c (first_line r)
  end.

(** Removal of the colour sequences: everything from an ESC up to and
    including the next letter m. *)
Fixpoint strip_sgr_from (in_sequence : bool) (s : string) : string :=
  match s with
  | EmptyString => EmptyString
  | String c r =>
      if in_sequence then strip_sgr_from (negb (Ascii.eqb c "m"%char)) r
      else if Ascii.eqb c esc_char then strip_sgr_from true r
      else String c (strip_sgr_from false r)
  end.

Definition strip_sgr (s : string) : string := strip_sgr_from false s.

(** [occurs x s]: [x] is a contiguous part of [s]. *)
Definition occurs (x s : string) : Prop :=
  exists before after, s = before ++ x ++ after.

End Str.

Import Str.

(** ** Python declarations

    The class statement of [Tool] is kept as data as well: the field names
    in order, their annotations and their defaults. *)

Module Py.

Inductive type : Type :=
| str
| Callable (parameters : list type) (result : type)
| Optional (t : type).

Inductive default : Type :=
| required
| default_None.

Record field : Type := {
  field_name : string;
  annotation : type;
  field_default : default
}.

Definition is_required (f : field) : bool :=
  match field_default f with required => true | default_None => false end.

Fixpoint lookup (n : string) (fs : list field) : option field :=
  match fs with
  | [] => None
  | f :: rest => if String.eqb (field_name f) n then Some f else lookup n rest
  end.

End Py.

(** ** Effects

    The completion endpoint, the search API and the tools are calls to the
    outside.  A computation is a function of the state of that outside
    world; nothing is assumed about it. *)

Section Effects.

Variable World : Type.

Definition M (A : Type) : Type := World -> A * World.

Definition ret {A : Type} (a : A) : M A := fun w => (a, w).

Definition bind {A B : Type} (m : M A) (k : A -> M B) : M B :=
  fun w => let (a, w') := m w in k a w'.

End Effects.

Arguments ret {World A} a.
Arguments bind {World A B} m k.

Notation "x <- m ;; k" := (bind m (fun x => k))
  (at level 61, m at next level, right associativity).
Notation "' pat <- m ;; k" := (bind m (fun x => match x with pat => k end))
  (at level 61, pat pattern, m at next level, right associativity).

(** ** Tools

    agents.ipynb, section Tools:
<<
    class Tool(NamedTuple):
        name: str
        func: Callable[[str], str]
        description: Optional[str] = None
>>
*)

Definition Tool_fields : list Py.field := [
  {| Py.field_name := "name";
     Py.annotation := Py.str;
     Py.field_default := Py.required |};
  {| Py.field_name := "func";
     Py.annotation := Py.Callable [Py.str] Py.str;
     Py.field_default := Py.required |};
  {| Py.field_name := "description";
     Py.annotation := Py.Optional Py.str;
     Py.field_default := Py.default_None |}
].

Record Tool (World : Type) : Type := {
  name : string;
  func : string -> M World string;
  description : option string
}.

Arguments name {World} t.
Arguments func {World} t tool_input w.
Arguments description {World} t.

(** The call [Tool(name=..., func=..., description=...)] with keyword
    arguments, each of which may be left out.  A missing argument without a
    default is a TypeError ([None] here). *)
Definition Tool_new {World : Type}
    (name_arg : option string)
    (func_arg : option (string -> M World string))
    (description_arg : option (option string)) : option (Tool World) :=
  match name_arg, func_arg with
  | Some n, Some f =>
      Some {| name := n;
              func := f;
              description := match description_arg with
                             | Some d => d
                             | None => None
                             end |}
  | _, _ => None
  end.

Definition given {A : Type} (arg : option A) : bool :=
  match arg with Some _ => true | None => false end.

Definition supplied {A B C : Type} (name_arg : option A) (func_arg : option B)
    (description_arg : option C) : list string :=
  (if given name_arg then ["name"] else [])
    ++ (if given func_arg then ["func"] else [])
    ++ (if given description_arg then ["description"] else []).

(** Which keyword arguments a call supplies, by name, against the class
    statement: every required field must be among them. *)
Definition accepts_call (fs : list Py.field) (supplied : list string) : bool :=
  forallb (fun f => negb (Py.is_required f)
                    || existsb (String.eqb (Py.field_name f)) supplied) fs
  && forallb (fun k => existsb (fun f => String.eqb (Py.field_name f) k) fs)
             supplied.

(** ** Prompt templates

    A template is a Python format string: [{name}] is a replacement field,
    [{{] and [}}] stand for a brace. *)

Inductive segment : Type :=
| Lit (text : string)
| Field (key : string).

Inductive scanning : Type :=
| in_text
| after_open
| after_close
| in_field (key : string).

Definition lit_cons (c : ascii) (rest : option (list segment))
  : option (list segment) :=
  match rest with
  | Some (Lit t :: segs) => Some (Lit (String c t) :: segs)
  | Some segs => Some (Lit (String c EmptyString) :: segs)
  | None => None
  end.

Fixpoint scan (st : scanning) (s : string) : option (list segment) :=
  match s with
  | EmptyString =>
      match st with in_text => Some [] | _ => None end
  | String c r =>
      match st with
      | in_text =>
          if Ascii.eqb c "{" then scan after_open r
          else if Ascii.eqb c "}" then scan after_close r
          else lit_cons c (scan in_text r)
      | after_open =>
          if Ascii.eqb c "{" then lit_cons c (scan in_text r)
          else if Ascii.eqb c "}"
               then option_map (cons (Field EmptyString)) (scan in_text r)
               else scan (in_field (String c EmptyString)) r
      | after_close =>
          if Ascii.eqb c "}" then lit_cons c (scan in_text r) else None
      | in_field k =>
          if Ascii.eqb c "}" then option_map (cons (Field k)) (scan in_text r)
          else scan (in_field (k ++ String c EmptyString)) r
      end
  end.

Definition parse_template (t : string) : option (list segment) :=
  scan in_text t.

Definition field_keys (segs : list segment) : list string :=
  flat_map (fun sg => match sg with Field k => [k] | Lit _ => [] end) segs.

(** [t.format] with keyword arguments: a key that is not supplied is a
    KeyError. *)
Fixpoint format_segments (kwargs : string -> option string)
    (segs : list segment) : option string :=
  match segs with
  | [] => Some EmptyString
  | Lit t :: rest => option_map (append t) (format_segments kwargs rest)
  | Field k :: rest =>
      match kwargs k, format_segments kwargs rest with
      | Some v, Some r => Some (v ++ r)
      | _, _ => None
      end
  end.

(** The keyword arguments of [PromptTemplate(template=..., input_variables=...)],
    as [create_prompt] passes them. *)
Record PromptTemplate : Type := {
  template : string;
  input_variables : list string
}.

(** Modelled from the spec: [PromptTemplate.format] (framework code, not in
    the notebooks): the template, as a Python format string, filled in
    with the keyword arguments. *)
Definition format (p : PromptTemplate) (kwargs : string -> option string)
  : option string :=
  match parse_template (template p) with
  | Some segs => format_segments kwargs segs
  | None => None
  end.

(** The replacement fields of a template, in order of appearance. *)
Definition template_variables (t : string) : list string :=
  match parse_template t with
  | Some segs => field_keys segs
  | None => []
  end.

(** [t.format] with keyword arguments, on the template itself. *)
Definition str_format (t : string) (kwargs : string -> option string)
  : option string :=
  match parse_template t with
  | Some segs => format_segments kwargs segs
  | None => None
  end.

Fixpoint all_chars (f : ascii -> bool) (s : string) : bool :=
  match s with
  | EmptyString => true
  | String c r => f c && all_chars f r
  end.

(** Text without a brace: as a template it has no field and no escape. *)
Definition brace_free (s : string) : bool :=
  all_chars (fun c => negb (Ascii.eqb c "{" || Ascii.eqb c "}")) s.

(** A replacement field that is a plain name, as "{input}" is: a letter or
    an underscore, then letters, digits and underscores.  Fields with an
    index, an attribute, a conversion or a format specification are
    outside of what [scan] reads. *)
Definition letter_char (c : ascii) : bool :=
  let n := nat_of_ascii c in
  ((65 <=? n)%nat && (n <=? 90)%nat)
  || ((97 <=? n)%nat && (n <=? 122)%nat)
  || (n =? 95)%nat.

Definition digit_char (c : ascii) : bool :=
  let n := nat_of_ascii c in (48 <=? n)%nat && (n <=? 57)%nat.

Definition plain_key (k : string) : bool :=
  match k with
  | EmptyString => false
  | String c r =>
      letter_char c && all_chars (fun d => letter_char d || digit_char d) r
  end.

(** Literal text put in front of what a template parses to. *)
Fixpoint lit_prepend (text : string) (rest : option (list segment))
  : option (list segment) :=
  match text with
  | EmptyString => rest
  | String c r => lit_cons c (lit_prepend r rest)
  end.

(** ** Memory *)

(** The keyword argument of [ConversationBufferMemory(memory_key=...)] and
    the text the memory holds. *)
Record ConversationBufferMemory : Type := {
  memory_key : string;
  buffer : string
}.

(** Modelled from the spec: the constructor of [ConversationBufferMemory]
    (framework code, not in the notebooks); a memory starts with no turn. *)
Definition ConversationBufferMemory_new (key : string)
  : ConversationBufferMemory :=
  {| memory_key := key; buffer := EmptyString |}.

(** Modelled from the spec: how a turn is carried (framework code, not in
    the notebooks): the memory appends the human text and the reply. *)
Definition save_turn (m : ConversationBufferMemory) (input output : string)
  : ConversationBufferMemory :=
  {| memory_key := memory_key m;
     buffer := buffer m ++ nl ++ "Human: " ++ input
                        ++ nl ++ "AI: " ++ output |}.

(** ** The agent loop

    [agent.run] and the classes it is built from belong to the framework;
    the notebooks only call them.  What follows is the loop as the
    description of the notebooks gives it: construct a prompt, call the
    completion endpoint, parse the output for an Action / Action Input
    pattern, dispatch to the tool of that name, feed the observation back
    into the prompt, repeat until a Final Answer is produced. *)

Inductive Parsed : Type :=
| Finish (answer : string)
| Act (tool tool_input : string)
| Malformed.

Inductive Error : Type :=
| KeyError
| ParseError (output : string)
| UnknownTool (tool : string).

(** [Unfinished]: the loop was cut off by the bound on its iterations; the
    loop itself has no such bound. *)
Inductive Outcome : Type :=
| Returned (answer : string)
| Raised (e : Error)
| Unfinished.

Inductive Event : Type :=
| Completion (prompt_text output : string)
| Invocation (tool tool_input observation : string).

Definition FINAL_ANSWER : string := "Final Answer".
Definition FINAL_ANSWER_ACTION : string := "Final Answer: ".

(** Modelled from the spec: the parser of the completion (framework code,
    not in the notebooks).  An output that contains [FINAL_ANSWER] ends the
    loop and what follows the label is the answer; otherwise the lines
    "Action: " and "Action Input: " name the tool and its input. *)
Definition final_answer (output : string) : option string :=
  match find FINAL_ANSWER output with
  | Some n => Some (drop (n + String.length FINAL_ANSWER_ACTION) output)
  | None => None
  end.

(** Modelled from the spec: the Action / Action Input pattern (framework
    code, not in the notebooks): the rest of the line after "Action: " is
    the tool's name, the rest of the line after "Action Input: " its
    input. *)
Definition action (output : string) : option (string * string) :=
  match text_after "Action: " output,
        text_after "Action Input: " output with
  | Some a, Some i => Some (first_line a, first_line i)
  | _, _ => None
  end.

(** Modelled from the spec: what the loop makes of a completion (framework
    code, not in the notebooks): the final answer if there is one, else
    the action, else nothing. *)
Definition extract_tool_and_input (output : string) : Parsed :=
  match final_answer output with
  | Some answer => Finish answer
  | None =>
      match action output with
      | Some (tool, tool_input) => Act tool tool_input
      | None => Malformed
      end
  end.

(** The names of the tools a run invoked, in order. *)
Definition invoked (events : list Event) : list string :=
  flat_map (fun e => match e with
                     | Invocation tool _ _ => [tool]
                     | Completion _ _ => []
                     end) events.

Module Framework.
Section WithWorld.

Variable World : Type.

(** The keyword arguments of [LLMChain(llm=..., prompt=..., memory=...)];
    [memory] is left out in cell 7 of agent_with_memory.ipynb. *)
Record LLMChain : Type := {
  llm : string -> M World string;
  prompt : PromptTemplate;
  memory : option ConversationBufferMemory
}.

(** The keyword arguments of [ZeroShotAgent(llm_chain=..., tools=...,
    verbose=True)]; [verbose] only prints. *)
Record ZeroShotAgent : Type := {
  llm_chain : LLMChain;
  tools : list (Tool World)
}.

(** Modelled from the spec: the values a chain formats its prompt with
    (framework code, not in the notebooks): the text given to the chain
    under "input" and, when the chain has a memory, the turns held so
    far under the memory's key. *)
Definition chain_inputs (c : LLMChain) (input : string)
  : string -> option string :=
  fun key =>
    match memory c with
    | Some m =>
        if String.eqb key (memory_key m) then Some (buffer m)
        else if String.eqb key "input" then Some input
        else None
    | None => if String.eqb key "input" then Some input else None
    end.

(** Modelled from the spec: the prompt a chain sends for an input
    (framework code, not in the notebooks). *)
Definition chain_prompt (c : LLMChain) (input : string) : option string :=
  format (prompt c) (chain_inputs c input).

(** Modelled from the spec: what a chain with a memory keeps of a call
    (framework code, not in the notebooks): the input it was given and the
    completion it got, as one more turn. *)
Definition save_context (c : LLMChain) (input output : string) : LLMChain :=
  match memory c with
  | Some m => {| llm := llm c;
                 prompt := prompt c;
                 memory := Some (save_turn m input output) |}
  | None => c
  end.

(** A chain has the memory [m], under a key that is a replacement field of
    the chain's template, which parses to [segs]. *)
Definition remembering (c : LLMChain) (m : ConversationBufferMemory)
    (segs : list segment) : Prop :=
  memory c = Some m
  /\ parse_template (template (prompt c)) = Some segs
  /\ In (Field (memory_key m)) segs.

(** Modelled from the spec: the dispatch on the tool's name (framework
    code, not in the notebooks). *)
Definition find_tool (ts : list (Tool World)) (n : string)
  : option (Tool World) :=
  List.find (fun t => String.eqb (name t) n) ts.

(** Modelled from the spec: the agent loop (framework code, not in the
    notebooks).  [chained_input] is the question followed by what the loop
    has appended so far. *)
Fixpoint iterate (fuel : nat) (ts : list (Tool World)) (c : LLMChain)
    (chained_input : string) {struct fuel}
  : M World (Outcome * list Event * LLMChain) :=
  match fuel with
  | O => ret (Unfinished, [], c)
  | S fuel' =>
      match chain_prompt c chained_input with
      | None => ret (Raised KeyError, [], c)
      | Some p =>
          output <- llm c p ;;
          let c1 := save_context c chained_input output in
          match extract_tool_and_input output with
          | Finish answer =>
              ret (Returned answer, [Completion p output], c1)
          | Malformed =>
              ret (Raised (ParseError output), [Completion p output], c1)
          | Act tool tool_input =>
              match find_tool ts tool with
              | None =>
                  ret (Raised (UnknownTool tool), [Completion p output], c1)
              | Some t =>
                  observation <- func t tool_input ;;
                  '(o, events, c2) <-
                    iterate fuel' ts c1
                      (chained_input ++ output ++ nl ++ "Observation: "
                         ++ observation ++ nl ++ "Thought:") ;;
                  ret (o,
                       Completion p output
                         :: Invocation tool tool_input observation
                         :: events,
                       c2)
              end
          end
      end
  end.

(** The steps of a run that returns, in the words of the description of
    the loop, one rule for the completion that holds the final answer and
    one for a completion that asks for a tool:
    [Steps ts c x w events answer c' w'] relates the chain [c], the
    chained input [x] and the world [w] before the run to what the run
    did, what it returned, and the chain and the world after it. *)
Inductive Steps (ts : list (Tool World))
  : LLMChain -> string -> World -> list Event -> string
    -> LLMChain -> World -> Prop :=
| steps_final c x w p output w' answer :
    chain_prompt c x = Some p ->
    llm c p w = (output, w') ->
    contains FINAL_ANSWER output = true ->
    final_answer output = Some answer ->
    Steps ts c x w [Completion p output] answer
          (save_context c x output) w'
| steps_action c x w p output w1 tool tool_input t observation w2
               events answer c' w' :
    chain_prompt c x = Some p ->
    llm c p w = (output, w1) ->
    contains FINAL_ANSWER output = false ->
    action output = Some (tool, tool_input) ->
    find_tool ts tool = Some t ->
    func t tool_input w1 = (observation, w2) ->
    Steps ts (save_context c x output)
          (x ++ output ++ nl ++ "Observation: " ++ observation
             ++ nl ++ "Thought:")
          w2 events answer c' w' ->
    Steps ts c x w
          (Completion p output
             :: Invocation tool tool_input observation :: events)
          answer c' w'.

(** Modelled from the spec: the chained input a run starts from (framework
    code, not in the notebooks): the question and the cue for the first
    thought, as the recorded transcripts open. *)
Definition first_input (question : string) : string :=
  question ++ nl ++ "Thought:".

(** Modelled from the spec: [agent.run] (framework code, not in the
    notebooks): the loop on the agent's chain and tools, from the
    question. *)
Definition run (fuel : nat) (a : ZeroShotAgent) (question : string)
  : M World (Outcome * list Event * ZeroShotAgent) :=
  '(o, events, c) <-
    iterate fuel (tools a) (llm_chain a) (first_input question) ;;
  ret (o, events, {| llm_chain := c; tools := tools a |}).

(** Several calls of [run] on the same agent, one after the other, as the
    cells of a notebook make them. *)
Fixpoint session (fuel : nat) (a : ZeroShotAgent) (questions : list string)
  : M World (list (Outcome * list Event) * ZeroShotAgent) :=
  match questions with
  | [] => ret ([], a)
  | q :: rest =>
      '(o, events, a1) <- run fuel a q ;;
      '(results, a2) <- session fuel a1 rest ;;
      ret ((o, events) :: results, a2)
  end.

(** Modelled from the spec: how [create_prompt] lists a tool (framework
    code, not in the notebooks): its name and its description. *)
Definition tool_line (t : Tool World) : string :=
  name t ++ ": " ++ match description t with
                    | Some d => d
                    | None => "None"
                    end.

(** ["\n".join(l)]. *)
Fixpoint lines (l : list string) : string :=
  match l with
  | [] => EmptyString
  | [x] => x
  | x :: rest => x ++ nl ++ lines rest
  end.

(** Modelled from the spec: [ZeroShotAgent.create_prompt] (framework code,
    not in the notebooks): the prefix, one line per tool, the suffix. *)
Definition create_prompt (ts : list (Tool World)) (prefix suffix : string)
    (variables : list string) : PromptTemplate :=
  {| template := prefix ++ nl ++ nl ++ lines (map tool_line ts)
                        ++ nl ++ nl ++ suffix;
     input_variables := variables |}.

(** Modelled from the spec: [initialize_agent] for the agent type
    "zero-shot-react-description" (framework code, not in the notebooks).
    The default prefix and suffix of that agent type are constants of the
    framework and are taken as arguments. *)
Definition initialize_agent (PREFIX SUFFIX : string)
    (ts : list (Tool World)) (model : string -> M World string)
  : ZeroShotAgent :=
  {| llm_chain := {| llm := model;
                     prompt := create_prompt ts PREFIX SUFFIX ["input"];
                     memory := None |};
     tools := ts |}.

End WithWorld.
End Framework.

Import Framework.

(** ** The loop, round by round

    The description of the loop once more, now in terms of the text alone
    and of the calls made: what a completion must hold for a tool to be
    invoked, which tool that is, what it is given, and what the next round
    starts from. *)

Definition no_line_feed (s : string) : bool :=
  all_chars (fun c => negb (Ascii.eqb c "010"%char)) s.

(** [output] has a line that holds [label] followed by [value] up to the
    end of that line. *)
Definition has_line (label value output : string) : Prop :=
  exists before rest,
    output = before ++ label ++ value ++ rest
    /\ (rest = EmptyString \/ exists r, rest = nl ++ r)
    /\ no_line_feed value = true.

(** The events end with a completion, and that completion is as [P]
    says. *)
Definition final_completion (events : list Event) (P : string -> Prop)
  : Prop :=
  exists (before : list Event) p output,
    events = (before ++ [Completion p output])%list /\ P output.

(** [answer] is what follows the label "Final Answer" and at most two more
    characters (the colon and the blank) to the end of [output]. *)
Definition answer_after_label (answer output : string) : Prop :=
  exists before sep,
    output = before ++ FINAL_ANSWER ++ sep ++ answer
    /\ String.length sep <= 2.

Section LoopInWords.

Variable World : Type.

(** The chain [c] is the chain [c0] with, at most, other turns in its
    memory: the same endpoint, the same prompt, the same memory key. *)
Definition same_setup (c c0 : LLMChain World) : Prop :=
  llm c = llm c0
  /\ prompt c = prompt c0
  /\ option_map memory_key (memory c) = option_map memory_key (memory c0).

(** [p] is the prompt the chain [c0] sends for the chained input [x],
    whatever turns its memory holds by then. *)
Definition built_from (c0 : LLMChain World) (x p : string) : Prop :=
  exists c, same_setup c c0 /\ chain_prompt c x = Some p.

(** [Rounds c0 ts x w events w']: from the chained input [x] in the world
    [w], the events [events] are rounds of the loop, and leave the world
    [w'].  A round sends a prompt built for the chained input and obtains
    the completion.  A round is followed by another only if its completion
    does not hold "Final Answer" and has an "Action: " and an
    "Action Input: " line; then the tool of the list that has the name on
    the first line is called on the text of the second, and the next round
    starts from the chained input with the completion and the observation
    appended. *)
Inductive Rounds (c0 : LLMChain World) (ts : list (Tool World))
  : string -> World -> list Event -> World -> Prop :=
| rounds_none x w :
    Rounds c0 ts x w [] w
| rounds_last x w p output w' :
    built_from c0 x p ->
    llm c0 p w = (output, w') ->
    Rounds c0 ts x w [Completion p output] w'
| rounds_more x w p output w1 tool tool_input t observation w2 events w' :
    built_from c0 x p ->
    llm c0 p w = (output, w1) ->
    ~ occurs FINAL_ANSWER output ->
    has_line "Action: " tool output ->
    has_line "Action Input: " tool_input output ->
    In t ts ->
    name t = tool ->
    func t tool_input w1 = (observation, w2) ->
    Rounds c0 ts
           (x ++ output ++ nl ++ "Observation: " ++ observation
              ++ nl ++ "Thought:")
           w2 events w' ->
    Rounds c0 ts x w
           (Completion p output
              :: Invocation tool tool_input observation :: events)
           w'.

End LoopInWords.

(** ** Recorded output

    What an executed cell shows: the text written to stdout while [run] was
    verbose, and the value of the cell.  The text is kept twice: as the list
    of lines the notebook file stores, and taken apart into the completions
    and observations it shows. *)

Record Output : Type := {
  stdout : string;
  result : string
}.

Record Step : Type := {
  completion : string;
  tool_stdout : string;
  colour : string;
  observation : string
}.

Record Recording : Type := {
  opening : string;
  question : string;
  steps : list Step;
  last_completion : string;
  closing : string
}.

Definition coloured (code text : string) : string :=
  sgr code ++ sgr "1;3" ++ text ++ sgr "0".

Definition bold (text : string) : string := sgr "1" ++ text ++ sgr "0".

Definition render_step (st : Step) : string :=
  coloured "32;1" (completion st) ++ tool_stdout st
    ++ nl ++ "Observation: " ++ coloured (colour st) (observation st)
    ++ nl ++ "Thought:".

Definition render (r : Recording) : string :=
  opening r ++ question r ++ nl ++ "Thought:"
    ++ join (map render_step (steps r))
    ++ coloured "32;1" (last_completion r) ++ closing r.

Definition completions (r : Recording) : list string :=
  map completion (steps r) ++ [last_completion r].

Definition observations (r : Recording) : list string :=
  map observation (steps r).

Definition entering : string := nl ++ nl ++ bold "> Entering new chain..." ++ nl.
Definition finished : string := nl ++ bold "> Finished chain." ++ nl.

(** The text that follows [label] in what a cell printed, colours removed,
    up to the end of that line. *)
Definition printed_after (label : string) (out : string) : option string :=
  option_map first_line (text_after label (strip_sgr out)).

(** ** docs/getting_started/agents.ipynb *)

Module AgentsNotebook.

(** Cell 4, the argument of [agent.run].  The output stored with the cell
    opens with another wording of the question ([question] of
    [cell4_recording]). *)
Definition run_argument : string :=
  "How old is Olivia Wilde's boyfriend? What is that number raised to the 0.23 power?".

(** Cell 4, outputs. *)
Definition cell4_stdout : string :=
  join [
    "What is the age of Olivia Wilde's boyfriend raised to the 0.23 power?"
      ++ nl;
    "Thought:" ++ sgr "32;1" ++ sgr "1;3"
      ++ " I need to find the age of Olivia Wilde's boyfriend" ++ nl;
    "Action: Search" ++ nl;
    "Action Input: " ++ dq ++ "Olivia Wilde's boyfriend" ++ dq ++ sgr "0"
      ++ nl;
    "Observation: " ++ sgr "36;1" ++ sgr "1;3"
      ++ "Olivia Wilde started dating Harry Styles after ending her years-long engagement to Jason Sudeikis — see their relationship timeline."
      ++ sgr "0" ++ nl;
    "Thought:" ++ sgr "32;1" ++ sgr "1;3"
      ++ " I need to find the age of Harry Styles" ++ nl;
    "Action: Search" ++ nl;
    "Action Input: " ++ dq ++ "Harry Styles age" ++ dq ++ sgr "0" ++ nl;
    "Observation: " ++ sgr "36;1" ++ sgr "1;3" ++ "28 years" ++ sgr "0" ++ nl;
    "Thought:" ++ sgr "32;1" ++ sgr "1;3"
      ++ " I need to calculate 28 to the 0.23 power" ++ nl;
    "Action: Calculator" ++ nl;
    "Action Input: 28^0.23" ++ sgr "0" ++ nl;
    nl;
    sgr "1" ++ "> Entering new chain..." ++ sgr "0" ++ nl;
    "28^0.23" ++ sgr "32;1" ++ sgr "1;3" ++ nl;
    nl;
    "```python" ++ nl;
    "print(28**0.23)" ++ nl;
    "```" ++ nl;
    sgr "0" ++ nl;
    "Answer: " ++ sgr "33;1" ++ sgr "1;3" ++ "2.1520202182226886" ++ nl;
    sgr "0" ++ nl;
    sgr "1" ++ "> Finished chain." ++ sgr "0" ++ nl;
    nl;
    "Observation: " ++ sgr "33;1" ++ sgr "1;3" ++ "Answer: 2.1520202182226886"
      ++ nl;
    sgr "0" ++ nl;
    "Thought:" ++ sgr "32;1" ++ sgr "1;3" ++ " I now know the final answer"
      ++ nl;
    "Final Answer: 2.1520202182226886" ++ sgr "0"
  ].

Definition cell4_result : string :=
  "2.1520202182226886".

Definition cell4 : Output :=
  {| stdout := cell4_stdout; result := cell4_result |}.

Definition calculator_stdout : string :=
  nl ++ nl ++ bold "> Entering new chain..." ++ nl ++ "28^0.23"
    ++ coloured "32;1" (nl ++ nl ++ "```python" ++ nl ++ "print(28**0.23)"
                           ++ nl ++ "```" ++ nl)
    ++ nl ++ "Answer: " ++ coloured "33;1" ("2.1520202182226886" ++ nl)
    ++ nl ++ bold "> Finished chain." ++ nl.

Definition cell4_recording : Recording :=
  {| opening := EmptyString;
     question :=
       "What is the age of Olivia Wilde's boyfriend raised to the 0.23 power?";
     steps := [
       {| completion :=
            " I need to find the age of Olivia Wilde's boyfriend" ++ nl
              ++ "Action: Search" ++ nl
              ++ "Action Input: " ++ dq ++ "Olivia Wilde's boyfriend" ++ dq;
          tool_stdout := EmptyString;
          colour := "36;1";
          observation :=
            "Olivia Wilde started dating Harry Styles after ending her years-long engagement to Jason Sudeikis — see their relationship timeline." |};
       {| completion :=
            " I need to find the age of Harry Styles" ++ nl
              ++ "Action: Search" ++ nl
              ++ "Action Input: " ++ dq ++ "Harry Styles age" ++ dq;
          tool_stdout := EmptyString;
          colour := "36;1";
          observation := "28 years" |};
       {| completion :=
            " I need to calculate 28 to the 0.23 power" ++ nl
              ++ "Action: Calculator" ++ nl
              ++ "Action Input: 28^0.23";
          tool_stdout := calculator_stdout;
          colour := "33;1";
          observation := "Answer: 2.1520202182226886" ++ nl |}
     ];
     last_completion :=
       " I now know the final answer" ++ nl
         ++ "Final Answer: 2.1520202182226886";
     closing := EmptyString |}.

Section Cells.

Variable World : Type.

(** [OpenAI(temperature=0)], [SerpAPIWrapper().run] and
    [LLMMathChain(llm=llm, verbose=True).run]: calls to the outside. *)
Variable llm : string -> M World string.
Variable search_run : string -> M World string.
Variable llm_math_chain_run : string -> M World string.

(** The prefix and suffix [initialize_agent] uses by default. *)
Variables PREFIX SUFFIX : string.

(** Cell 2. *)
Definition tools : list (Tool World) := [
  {| name := "Search";
     func := search_run;
     description :=
       Some "useful for when you need to answer questions about current events" |};
  {| name := "Calculator";
     func := llm_math_chain_run;
     description :=
       Some "useful for when you need to answer questions about math" |}
].

(** Cell 3. *)
Definition agent : ZeroShotAgent World :=
  initialize_agent PREFIX SUFFIX tools llm.

End Cells.

End AgentsNotebook.

(** ** docs/examples/memory/agent_with_memory.ipynb *)

Module MemoryNotebook.

(** Cell 3 (and, with another suffix, cell 7). *)
Definition prefix : string :=
  "Have a conversation with a human, answering the following questions as best you can. You have access to the following tools:".

Definition suffix : string :=
  "Begin!" ++ dq ++ nl ++ nl ++ "{chat_history}" ++ nl ++ "Question: {input}".

Definition prompt_input_variables : list string := ["input"; "chat_history"].

Definition memory : ConversationBufferMemory :=
  ConversationBufferMemory_new "chat_history".

(** Cell 7. *)
Definition suffix_without_memory : string :=
  "Begin!" ++ dq ++ nl ++ nl ++ "Question: {input}".

Definition prompt_without_memory_input_variables : list string := ["input"].

(** Cells 5 and 6: the two calls of [agent.run]. *)
Definition cell5_argument : string := "How many people live in canada?".

Definition cell5_stdout : string :=
  join [
    nl;
    nl;
    sgr "1" ++ "> Entering new chain..." ++ sgr "0" ++ nl;
    "How many people live in canada?" ++ nl;
    "Thought:" ++ sgr "32;1" ++ sgr "1;3"
      ++ " I should look up how many people live in canada" ++ nl;
    "Action: Search" ++ nl;
    "Action Input: " ++ dq ++ "How many people live in canada?" ++ dq
      ++ sgr "0" ++ nl;
    "Observation: " ++ sgr "36;1" ++ sgr "1;3"
      ++ "The current population of Canada is 38,533,678 as of Friday, November 25, 2022, based on Worldometer elaboration of the latest United Nations data. · Canada 2020 ..."
      ++ sgr "0" ++ nl;
    "Thought:" ++ sgr "32;1" ++ sgr "1;3" ++ " I now know the final answer"
      ++ nl;
    "Final Answer: The current population of Canada is 38,533,678 as of Friday, November 25, 2022, based on Worldometer elaboration of the latest United Nations data."
      ++ sgr "0" ++ nl;
    sgr "1" ++ "> Finished chain." ++ sgr "0" ++ nl
  ].

Definition cell5_result : string :=
  "The current population of Canada is 38,533,678 as of Friday, November 25, 2022, based on Worldometer elaboration of the latest United Nations data.".

Definition cell6_argument : string := "what is their national anthem called?".

Definition cell6_stdout : string :=
  join [
    nl;
    nl;
    sgr "1" ++ "> Entering new chain..." ++ sgr "0" ++ nl;
    "what is their national anthem called?" ++ nl;
    "Thought:" ++ sgr "32;1" ++ sgr "1;3" ++ nl;
    "AI:  I should look up the name of Canada's national anthem" ++ nl;
    "Action: Search" ++ nl;
    "Action Input: " ++ dq ++ "What is the name of Canada's national anthem?"
      ++ dq ++ sgr "0" ++ nl;
    "Observation: " ++ sgr "36;1" ++ sgr "1;3"
      ++ "After 100 years of tradition, O Canada was proclaimed Canada's national anthem in 1980. The music for O Canada was composed in 1880 by Calixa ..."
      ++ sgr "0" ++ nl;
    "Thought:" ++ sgr "32;1" ++ sgr "1;3" ++ nl;
    "AI:  I now know the final answer" ++ nl;
    "Final Answer: After 100 years of tradition, O Canada was proclaimed Canada's national anthem in 1980. The music for O Canada was composed in 1880 by Calixa Lavallée."
      ++ sgr "0" ++ nl;
    sgr "1" ++ "> Finished chain." ++ sgr "0" ++ nl
  ].

Definition cell6_result : string :=
  "After 100 years of tradition, O Canada was proclaimed Canada's national anthem in 1980. The music for O Canada was composed in 1880 by Calixa Lavallée.".

(** Cells 10 and 11: the two calls of [agent_without_memory.run]. *)
Definition cell10_argument : string := "How many people live in canada?".

Definition cell10_stdout : string :=
  join [
    nl;
    nl;
    sgr "1" ++ "> Entering new chain..." ++ sgr "0" ++ nl;
    "How many people live in canada?" ++ nl;
    "Thought:" ++ sgr "32;1" ++ sgr "1;3"
      ++ " I should look up how many people live in canada" ++ nl;
    "Action: Search" ++ nl;
    "Action Input: " ++ dq ++ "How many people live in canada?" ++ dq
      ++ sgr "0" ++ nl;
    "Observation: " ++ sgr "36;1" ++ sgr "1;3"
      ++ "The current population of Canada is 38,533,678 as of Friday, November 25, 2022, based on Worldometer elaboration of the latest United Nations data. · Canada 2020 ..."
      ++ sgr "0" ++ nl;
    "Thought:" ++ sgr "32;1" ++ sgr "1;3" ++ " I now know the final answer"
      ++ nl;
    "Final Answer: The current population of Canada is 38,533,678" ++ sgr "0"
      ++ nl;
    sgr "1" ++ "> Finished chain." ++ sgr "0" ++ nl
  ].

Definition cell10_result : string :=
  "The current population of Canada is 38,533,678".

Definition cell11_argument : string := "what is their national anthem called?".

Definition cell11_stdout : string :=
  join [
    nl;
    nl;
    sgr "1" ++ "> Entering new chain..." ++ sgr "0" ++ nl;
    "what is their national anthem called?" ++ nl;
    "Thought:" ++ sgr "32;1" ++ sgr "1;3" ++ " I should probably look this up"
      ++ nl;
    "Action: Search" ++ nl;
    "Action Input: " ++ dq ++ "What is the national anthem of [country]" ++ dq
      ++ sgr "0" ++ nl;
    "Observation: " ++ sgr "36;1" ++ sgr "1;3"
      ++ "Most nation states have an anthem, defined as " ++ dq
      ++ "a song, as of praise, devotion, or patriotism" ++ dq
      ++ "; most anthems are either marches or hymns in style." ++ sgr "0"
      ++ nl;
    "Thought:" ++ sgr "32;1" ++ sgr "1;3" ++ " I now know the final answer"
      ++ nl;
    "Final Answer: The national anthem is called " ++ dq
      ++ "the national anthem." ++ dq ++ sgr "0" ++ nl;
    sgr "1" ++ "> Finished chain." ++ sgr "0" ++ nl
  ].

Definition cell11_result : string :=
  "The national anthem is called " ++ dq ++ "the national anthem." ++ dq.

Definition cell5 : Output := {| stdout := cell5_stdout; result := cell5_result |}.
Definition cell6 : Output := {| stdout := cell6_stdout; result := cell6_result |}.
Definition cell10 : Output := {| stdout := cell10_stdout; result := cell10_result |}.
Definition cell11 : Output := {| stdout := cell11_stdout; result := cell11_result |}.

Definition population_observation : string :=
  "The current population of Canada is 38,533,678 as of Friday, November 25, 2022, based on Worldometer elaboration of the latest United Nations data. · Canada 2020 ...".

Definition cell5_recording : Recording :=
  {| opening := entering;
     question := "How many people live in canada?";
     steps := [
       {| completion :=
            " I should look up how many people live in canada" ++ nl
              ++ "Action: Search" ++ nl
              ++ "Action Input: " ++ dq ++ "How many people live in canada?" ++ dq;
          tool_stdout := EmptyString;
          colour := "36;1";
          observation := population_observation |}
     ];
     last_completion :=
       " I now know the final answer" ++ nl
         ++ "Final Answer: The current population of Canada is 38,533,678 as of Friday, November 25, 2022, based on Worldometer elaboration of the latest United Nations data.";
     closing := finished |}.

Definition cell6_recording : Recording :=
  {| opening := entering;
     question := "what is their national anthem called?";
     steps := [
       {| completion :=
            nl ++ "AI:  I should look up the name of Canada's national anthem" ++ nl
              ++ "Action: Search" ++ nl
              ++ "Action Input: " ++ dq
              ++ "What is the name of Canada's national anthem?" ++ dq;
          tool_stdout := EmptyString;
          colour := "36;1";
          observation :=
            "After 100 years of tradition, O Canada was proclaimed Canada's national anthem in 1980. The music for O Canada was composed in 1880 by Calixa ..." |}
     ];
     last_completion :=
       nl ++ "AI:  I now know the final answer" ++ nl
         ++ "Final Answer: After 100 years of tradition, O Canada was proclaimed Canada's national anthem in 1980. The music for O Canada was composed in 1880 by Calixa Lavallée.";
     closing := finished |}.

Definition cell10_recording : Recording :=
  {| opening := entering;
     question := "How many people live in canada?";
     steps := [
       {| completion :=
            " I should look up how many people live in canada" ++ nl
              ++ "Action: Search" ++ nl
              ++ "Action Input: " ++ dq ++ "How many people live in canada?" ++ dq;
          tool_stdout := EmptyString;
          colour := "36;1";
          observation := population_observation |}
     ];
     last_completion :=
       " I now know the final answer" ++ nl
         ++ "Final Answer: The current population of Canada is 38,533,678";
     closing := finished |}.

Definition cell11_recording : Recording :=
  {| opening := entering;
     question := "what is their national anthem called?";
     steps := [
       {| completion :=
            " I should probably look this up" ++ nl
              ++ "Action: Search" ++ nl
              ++ "Action Input: " ++ dq
              ++ "What is the national anthem of [country]" ++ dq;
          tool_stdout := EmptyString;
          colour := "36;1";
          observation :=
            "Most nation states have an anthem, defined as " ++ dq
              ++ "a song, as of praise, devotion, or patriotism" ++ dq
              ++ "; most anthems are either marches or hymns in style." |}
     ];
     last_completion :=
       " I now know the final answer" ++ nl
         ++ "Final Answer: The national anthem is called " ++ dq
         ++ "the national anthem." ++ dq;
     closing := finished |}.

Section Cells.

Variable World : Type.

(** [OpenAI(temperature=0)] and [SerpAPIWrapper().run]: calls to the
    outside. *)
Variable llm : string -> M World string.
Variable search_run : string -> M World string.

(** Cell 2. *)
Definition tools : list (Tool World) := [
  {| name := "Search";
     func := search_run;
     description :=
       Some "useful for when you need to answer questions about current events" |}
].

(** Cell 3. *)
Definition prompt : PromptTemplate :=
  create_prompt tools prefix suffix prompt_input_variables.

(** Cell 4. *)
Definition llm_chain : LLMChain World :=
  {| Framework.llm := llm;
     Framework.prompt := prompt;
     Framework.memory := Some memory |}.

Definition agent : ZeroShotAgent World :=
  {| Framework.llm_chain := llm_chain; Framework.tools := tools |}.

(** Cell 7. *)
Definition prompt_without_memory : PromptTemplate :=
  create_prompt tools prefix suffix_without_memory
    prompt_without_memory_input_variables.

Definition llm_chain_without_memory : LLMChain World :=
  {| Framework.llm := llm;
     Framework.prompt := prompt_without_memory;
     Framework.memory := None |}.

Definition agent_without_memory : ZeroShotAgent World :=
  {| Framework.llm_chain := llm_chain_without_memory;
     Framework.tools := tools |}.

End Cells.

End MemoryNotebook.

(** Every executed call of [run] in the two notebooks, with the tool names
    of the agent that made it. *)
Definition recorded_runs : list (list string * Recording * Output) := [
  (["Search"; "Calculator"],
   AgentsNotebook.cell4_recording, AgentsNotebook.cell4);
  (["Search"], MemoryNotebook.cell5_recording, MemoryNotebook.cell5);
  (["Search"], MemoryNotebook.cell6_recording, MemoryNotebook.cell6);
  (["Search"], MemoryNotebook.cell10_recording, MemoryNotebook.cell10);
  (["Search"], MemoryNotebook.cell11_recording, MemoryNotebook.cell11)
].

(** ** Replaying the recordings

    A world that answers from a script: the completion endpoint hands out
    the recorded completions in order, the tools the recorded observations. *)

Module Replay.

Record Script : Type := {
  pending_completions : list string;
  pending_observations : list string
}.

Definition next_completion (_ : string) : M Script string :=
  fun w => (hd EmptyString (pending_completions w),
            {| pending_completions := tl (pending_completions w);
               pending_observations := pending_observations w |}).

Definition next_observation (_ : string) : M Script string :=
  fun w => (hd EmptyString (pending_observations w),
            {| pending_completions := pending_completions w;
               pending_observations := tl (pending_observations w) |}).

Definition script (rs : list Recording) : Script :=
  {| pending_completions := flat_map completions rs;
     pending_observations := flat_map observations rs |}.

(** The agents of the notebooks in that world.  The scripted endpoint does
    not read its prompt, so any default prefix and suffix serve. *)
Definition agents_agent : ZeroShotAgent Script :=
  AgentsNotebook.agent next_completion next_observation next_observation
    EmptyString "{input}".

Definition memory_agent : ZeroShotAgent Script :=
  MemoryNotebook.agent next_completion next_observation.

Definition memory_agent_without_memory : ZeroShotAgent Script :=
  MemoryNotebook.agent_without_memory next_completion next_observation.

(** Cells 5 and 6, run one after the other. *)
Definition memory_session
  : list (Outcome * list Event) * ZeroShotAgent Script * Script :=
  session 2 memory_agent
    [MemoryNotebook.cell5_argument; MemoryNotebook.cell6_argument]
    (script [MemoryNotebook.cell5_recording;
             MemoryNotebook.cell6_recording]).

End Replay.

(** A world that also checks what it is asked.  A tool hands out the next
    recorded observation only when it is the tool the transcript names at
    that point and is given the text of the transcript's Action Input line;
    anything else is counted as a fault and answered with nothing. *)

Module Checked.

Record Expected : Type := {
  expected_tool : string;
  expected_input : string;
  observation_given : string
}.

Record State : Type := {
  completions_left : list string;
  expected_left : list Expected;
  faults : nat
}.

Definition fault (w : State) : State :=
  {| completions_left := completions_left w;
     expected_left := expected_left w;
     faults := S (faults w) |}.

Definition complete (_ : string) : M State string :=
  fun w =>
    match completions_left w with
    | c :: rest =>
        (c, {| completions_left := rest;
               expected_left := expected_left w;
               faults := faults w |})
    | [] => (EmptyString, fault w)
    end.

Definition tool (tool_name : string) (tool_input : string) : M State string :=
  fun w =>
    match expected_left w with
    | e :: rest =>
        if String.eqb tool_name (expected_tool e)
           && String.eqb tool_input (expected_input e)
        then (observation_given e,
              {| completions_left := completions_left w;
                 expected_left := rest;
                 faults := faults w |})
        else (EmptyString, fault w)
    | [] => (EmptyString, fault w)
    end.

(** The Action and Action Input lines of the stored transcripts, in
    order. *)
Definition agents_cell4_actions : list (string * string) := [
  ("Search", dq ++ "Olivia Wilde's boyfriend" ++ dq);
  ("Search", dq ++ "Harry Styles age" ++ dq);
  ("Calculator", "28^0.23")
].

Definition memory_cell5_actions : list (string * string) := [
  ("Search", dq ++ "How many people live in canada?" ++ dq)
].

Definition memory_cell6_actions : list (string * string) := [
  ("Search", dq ++ "What is the name of Canada's national anthem?" ++ dq)
].

Definition memory_cell10_actions : list (string * string) := [
  ("Search", dq ++ "How many people live in canada?" ++ dq)
].

Definition memory_cell11_actions : list (string * string) := [
  ("Search", dq ++ "What is the national anthem of [country]" ++ dq)
].

Definition expected (actions : list (string * string)) (r : Recording)
  : list Expected :=
  map (fun ao => {| expected_tool := fst (fst ao);
                    expected_input := snd (fst ao);
                    observation_given := snd ao |})
      (combine actions (observations r)).

Definition script (runs : list (list (string * string) * Recording))
  : State :=
  {| completions_left := flat_map (fun ar => completions (snd ar)) runs;
     expected_left := flat_map (fun ar => expected (fst ar) (snd ar)) runs;
     faults := 0 |}.

(** Nothing is left to hand out and nothing went wrong. *)
Definition spent (w : State) : bool :=
  match completions_left w, expected_left w, faults w with
  | [], [], O => true
  | _, _, _ => false
  end.

(** The agents of the notebooks in that world; for agents.ipynb the
    default suffix is taken to end with the input. *)
Definition agents_agent : ZeroShotAgent State :=
  AgentsNotebook.agent complete (tool "Search") (tool "Calculator")
    EmptyString "{input}".

Definition memory_agent : ZeroShotAgent State :=
  MemoryNotebook.agent complete (tool "Search").

Definition memory_agent_without_memory : ZeroShotAgent State :=
  MemoryNotebook.agent_without_memory complete (tool "Search").

(** [s.endswith(suffix)]. *)
Definition ends_with (suffix s : string) : bool :=
  String.eqb (drop (String.length s - String.length suffix) s) suffix.

(** [s] with the first occurrence of [part] cut out. *)
Definition without (part s : string) : string :=
  match find part s with
  | Some n => take n s ++ drop (n + String.length part) s
  | None => s
  end.

(** The events of a run against the plain text [plain] of a cell:
    [shown] is what the transcript shows so far.  Every prompt ends with
    [label] and the text shown before its completion, that text and the
    completion open the stored text after the banner, and at the end the
    whole stored text has been shown. *)
Fixpoint follows (label banner closing plain shown : string)
    (events : list Event) : bool :=
  match events with
  | [] => String.eqb (banner ++ shown ++ closing) plain
  | Completion p output :: rest =>
      ends_with (label ++ shown) p
      && String.prefix (banner ++ shown ++ output) plain
      && follows label banner closing plain (shown ++ output) rest
  | Invocation _ _ observation :: rest =>
      follows label banner closing plain
              (shown ++ nl ++ "Observation: " ++ observation
                 ++ nl ++ "Thought:")
              rest
  end.

(** The call the stored text of cell 4 of agents.ipynb shows, and the
    calls of cells 5 and 6 and of cells 10 and 11 of
    agent_with_memory.ipynb, in that world. *)
Definition agents_run
  : Outcome * list Event * ZeroShotAgent State * State :=
  run 4 agents_agent (question AgentsNotebook.cell4_recording)
    (script [(agents_cell4_actions, AgentsNotebook.cell4_recording)]).

Definition memory_session
  : list (Outcome * list Event) * ZeroShotAgent State * State :=
  session 2 memory_agent
    [MemoryNotebook.cell5_argument; MemoryNotebook.cell6_argument]
    (script [(memory_cell5_actions, MemoryNotebook.cell5_recording);
             (memory_cell6_actions, MemoryNotebook.cell6_recording)]).

Definition without_memory_session
  : list (Outcome * list Event) * ZeroShotAgent State * State :=
  session 2 memory_agent_without_memory
    [MemoryNotebook.cell10_argument; MemoryNotebook.cell11_argument]
    (script [(memory_cell10_actions, MemoryNotebook.cell10_recording);
             (memory_cell11_actions, MemoryNotebook.cell11_recording)]).

(** A run of agent_with_memory.ipynb against the text stored with its
    cell. *)
Definition follows_cell (argument : string) (r : Outcome * list Event)
    (o : Output) : bool :=
  follows "Question: " (strip_sgr entering) (strip_sgr finished)
          (strip_sgr (stdout o)) (first_input argument) (snd r).

End Checked.

(** An agent whose chain has a memory and whose prompt does not mention
    the memory's key: the chain of cell 4 of agent_with_memory.ipynb with
    the template "{input}" in the place of the prompt of cell 3. *)

Module Forgetful.

Definition llm_chain : LLMChain Replay.Script :=
  {| Framework.llm := Replay.next_completion;
     Framework.prompt := {| template := "{input}";
                            input_variables := ["input"] |};
     Framework.memory := Some MemoryNotebook.memory |}.

Definition agent : ZeroShotAgent Replay.Script :=
  {| Framework.llm_chain := llm_chain;
     Framework.tools := MemoryNotebook.tools Replay.next_observation |}.

Definition world : Replay.Script :=
  {| Replay.pending_completions :=
       ["Final Answer: Ottawa"; "Final Answer: unknown"];
     Replay.pending_observations := [] |}.

Definition first_question : string := "What is the capital of Canada?".
Definition follow_up_question : string := "How many people live there?".

Definition follow_up
  : list (Outcome * list Event) * ZeroShotAgent Replay.Script
    * Replay.Script :=
  session 1 agent [first_question; follow_up_question] world.

End Forgetful.

(** [s.lstrip(" ")]. *)
Fixpoint lstrip (s : string) : string :=
  match s with
  | String c r => if Ascii.eqb c " "%char then lstrip r else s
  | EmptyString => EmptyString
  end.

(** * Properties *)

(** ** Text *)

Lemma append_assoc (a b c : string) : (a ++ b) ++ c = a ++ (b ++ c).
Proof. induction a as [|ch a IH]; simpl; [reflexivity | now rewrite IH]. Qed.

Lemma append_empty_r (a : string) : a ++ EmptyString = a.
Proof. induction a as [|ch a IH]; simpl; [reflexivity | now rewrite IH]. Qed.

Lemma occurs_refl (x : string) : occurs x x.
Proof. exists EmptyString, EmptyString. simpl. now rewrite append_empty_r. Qed.

Lemma occurs_trans (x y z : string) : occurs x y -> occurs y z -> occurs x z.
Proof.
  intros (b1 & a1 & ->) (b2 & a2 & ->).
  exists (b2 ++ b1), (a1 ++ a2).
  now rewrite !append_assoc.
Qed.

Lemma occurs_append_l (x s t : string) : occurs x s -> occurs x (s ++ t).
Proof.
  intros (b & a & ->). exists b, (a ++ t). now rewrite !append_assoc.
Qed.

Lemma occurs_append_r (x s t : string) : occurs x t -> occurs x (s ++ t).
Proof.
  intros (b & a & ->). exists (s ++ b), a. now rewrite !append_assoc.
Qed.

Create HintDb text.
#[export] Hint Resolve occurs_refl occurs_append_l occurs_append_r : text.

Lemma take_drop (n : nat) (s : string) : take n s ++ drop n s = s.
Proof.
  revert s; induction n as [|n IH]; intros [|c r]; simpl; try reflexivity.
  now rewrite IH.
Qed.

Lemma occurs_drop (n : nat) (s : string) : occurs (drop n s) s.
Proof.
  exists (take n s), EmptyString.
  now rewrite append_empty_r, take_drop.
Qed.

Lemma contains_iff_find (sub s : string) :
  contains sub s = true <-> exists n, find sub s = Some n.
Proof.
  unfold contains. destruct (find sub s) as [n|].
  - split; [eauto | reflexivity].
  - split; [discriminate | intros [n [=]]].
Qed.

Lemma final_answer_iff_contains (output : string) :
  (exists answer, final_answer output = Some answer)
  <-> contains FINAL_ANSWER output = true.
Proof.
  unfold final_answer, contains.
  destruct (find FINAL_ANSWER output) as [n|].
  - split; [reflexivity | eauto].
  - split; [intros [a [=]] | discriminate].
Qed.

Lemma final_answer_occurs (output answer : string) :
  final_answer output = Some answer -> occurs answer output.
Proof.
  unfold final_answer. destruct (find FINAL_ANSWER output); [|discriminate].
  intros [= <-]. apply occurs_drop.
Qed.

Lemma extract_finish (output answer : string) :
  final_answer output = Some answer ->
  extract_tool_and_input output = Finish answer.
Proof. unfold extract_tool_and_input. now intros ->. Qed.

Lemma extract_act (output tool tool_input : string) :
  contains FINAL_ANSWER output = false ->
  action output = Some (tool, tool_input) ->
  extract_tool_and_input output = Act tool tool_input.
Proof.
  intros Hc Ha. unfold extract_tool_and_input.
  destruct (final_answer output) as [a|] eqn:Hf.
  - assert (contains FINAL_ANSWER output = true)
      by (apply final_answer_iff_contains; eauto).
    congruence.
  - now rewrite Ha.
Qed.

Lemma extract_finish_inv (output answer : string) :
  extract_tool_and_input output = Finish answer ->
  contains FINAL_ANSWER output = true /\ final_answer output = Some answer.
Proof.
  unfold extract_tool_and_input.
  destruct (final_answer output) as [a|] eqn:Hf.
  - intros [= <-]. split; [apply final_answer_iff_contains; eauto | easy].
  - destruct (action output) as [[t i]|]; discriminate.
Qed.

Lemma extract_act_inv (output tool tool_input : string) :
  extract_tool_and_input output = Act tool tool_input ->
  contains FINAL_ANSWER output = false
  /\ action output = Some (tool, tool_input).
Proof.
  unfold extract_tool_and_input.
  destruct (final_answer output) as [a|] eqn:Hf; [discriminate|].
  destruct (action output) as [[t i]|]; [|discriminate].
  intros [= <- <-]. split; [|reflexivity].
  destruct (contains FINAL_ANSWER output) eqn:Hc; [|reflexivity].
  apply final_answer_iff_contains in Hc as [a Ha]. congruence.
Qed.

(** ** The recordings *)

(** The two forms of each recording agree: put back together, with the
    colours, the completions and observations are the stored lines. *)
Lemma recordings_render_to_stdout :
  Forall (fun run => render (snd (fst run)) = stdout (snd run)) recorded_runs.
Proof.
  unfold recorded_runs.
  repeat (constructor; [vm_compute; reflexivity|]). constructor.
Qed.

(** ** Tools *)

(** C3.  A Tool is a record of exactly three fields, a name (a string), a
    callable and a description.  The name and the callable are required:
    the constructor succeeds exactly when both are given, which is also
    what the class statement asks of a call.  The description is optional
    and is None when it is left out. *)
Theorem Tool_is_a_record_of_three_fields :
  map Py.field_name Tool_fields = ["name"; "func"; "description"]
  /\ map Py.field_name (filter Py.is_required Tool_fields) = ["name"; "func"]
  /\ option_map Py.annotation (Py.lookup "name" Tool_fields) = Some Py.str
  /\ option_map Py.field_default (Py.lookup "description" Tool_fields)
     = Some Py.default_None
  /\ (forall World (t : Tool World),
        t = {| name := name t; func := func t;
               description := description t |})
  /\ (forall World n f d,
        @Tool_new World n f d <> None <-> n <> None /\ f <> None)
  /\ (forall World n f d,
        given (@Tool_new World n f d)
        = accepts_call Tool_fields (supplied n f d))
  /\ (forall World n f,
        @Tool_new World (Some n) (Some f) None
        = Some {| name := n; func := f; description := None |})
  /\ (forall World n f d,
        @Tool_new World (Some n) (Some f) (Some d)
        = Some {| name := n; func := f; description := d |}).
Proof.
  do 4 (split; [reflexivity|]).
  split; [intros World t; now destruct t|].
  split.
  { intros World n f d. destruct n, f; simpl; split;
      try (intros H; now contradiction H);
      try (intros [H1 H2]; congruence);
      intros _; split; discriminate. }
  split; [intros World n f d; destruct n, f, d; reflexivity|].
  split; reflexivity.
Qed.

(** ** The prompt of the agent with memory *)

(** C8.  The conversation-history variable of the prompt is the memory's
    key: the suffix of cell 3 has the replacement field "chat_history",
    the memory of cell 3 has the key "chat_history", that key is among the
    [input_variables] given to [create_prompt], and the chain of cell 4
    holds this memory and this prompt, whose template has the fields
    "chat_history" and "input". *)
Theorem chat_history_is_the_memory_key :
  memory_key MemoryNotebook.memory = "chat_history"
  /\ In (memory_key MemoryNotebook.memory)
        (template_variables MemoryNotebook.suffix)
  /\ In (memory_key MemoryNotebook.memory)
        MemoryNotebook.prompt_input_variables
  /\ forall World llm search_run,
       let c := @MemoryNotebook.llm_chain World llm search_run in
       memory c = Some MemoryNotebook.memory
       /\ input_variables (prompt c) = ["input"; "chat_history"]
       /\ template_variables (template (prompt c))
          = ["chat_history"; "input"].
Proof.
  split; [reflexivity|].
  split; [vm_compute; tauto|].
  split; [vm_compute; tauto|].
  intros World llm search_run c.
  split; [reflexivity|]. split; [reflexivity|].
  vm_compute. reflexivity.
Qed.

(** ** The agent loop *)

(** One case analysis serves every induction on the loop's bound: name the
    result of the recursive call that [H] mentions. *)
Ltac destruct_recursive_call H Hi :=
  match type of H with
  | context [iterate ?fuel ?ts ?c ?x ?w] =>
      destruct (iterate fuel ts c x w) as [[[? ?] ?] ?] eqn:Hi
  end.

Section LoopFacts.

Variable World : Type.

Implicit Types (c : LLMChain World) (ts : list (Tool World))
  (a : ZeroShotAgent World) (w : World).

Lemma find_tool_name ts n t :
  find_tool ts n = Some t -> In n (map name ts).
Proof.
  unfold find_tool. intros H. apply find_some in H as [Hin Heq].
  apply String.eqb_eq in Heq. subst n. now apply in_map.
Qed.

Lemma iterate_returned_steps fuel : forall ts c x w answer events c' w',
  iterate fuel ts c x w = (Returned answer, events, c', w') ->
  Steps ts c x w events answer c' w'.
Proof.
  induction fuel as [|fuel IH]; intros ts c x w answer events c' w' H.
  - discriminate H.
  - cbn [iterate] in H.
    destruct (chain_prompt c x) as [p|] eqn:Hp; [|discriminate H].
    unfold bind at 1 in H.
    destruct (llm c p w) as [output w1] eqn:Hl.
    destruct (extract_tool_and_input output) as [ans|tool ti|] eqn:He.
    + unfold ret in H. injection H as <- <- <- <-.
      apply extract_finish_inv in He as [Hc Hf].
      now apply steps_final.
    + destruct (find_tool ts tool) as [t|] eqn:Hf; [|discriminate H].
      unfold bind at 1 in H.
      destruct (func t ti w1) as [obs w2] eqn:Ho.
      unfold bind at 1 in H.
      destruct_recursive_call H Hi.
      unfold ret in H. injection H as -> <- <- <-.
      apply extract_act_inv in He as [Hc Ha].
      eapply steps_action; eauto.
    + discriminate H.
Qed.

Lemma iterate_invokes_supplied fuel : forall ts c x w o events c' w',
  iterate fuel ts c x w = (o, events, c', w') ->
  Forall (fun n => In n (map name ts)) (invoked events).
Proof.
  induction fuel as [|fuel IH]; intros ts c x w o events c' w' H.
  - injection H as <- <- <- <-. constructor.
  - cbn [iterate] in H.
    destruct (chain_prompt c x) as [p|] eqn:Hp;
      [|injection H as <- <- <- <-; constructor].
    unfold bind at 1 in H.
    destruct (llm c p w) as [output w1] eqn:Hl.
    destruct (extract_tool_and_input output) as [ans|tool ti|] eqn:He;
      try (injection H as <- <- <- <-; constructor).
    destruct (find_tool ts tool) as [t|] eqn:Hf;
      [|injection H as <- <- <- <-; constructor].
    unfold bind at 1 in H.
    destruct (func t ti w1) as [obs w2] eqn:Ho.
    unfold bind at 1 in H.
    destruct_recursive_call H Hi.
    injection H as <- <- <- <-. simpl. constructor.
    + eapply find_tool_name; eauto.
    + eapply IH; eauto.
Qed.

Lemma run_iterate fuel a q w o events a' w' :
  run fuel a q w = (o, events, a', w') ->
  tools a' = tools a
  /\ iterate fuel (tools a) (llm_chain a) (first_input q) w
     = (o, events, llm_chain a', w').
Proof.
  unfold run, bind. intros H.
  destruct (iterate fuel (tools a) (llm_chain a) (first_input q) w)
    as [[[o1 evs] c1] w1].
  injection H as <- <- <- <-. split; reflexivity.
Qed.

End LoopFacts.

(** C5.  Every tool a run invokes is one of the tools the agent was
    constructed with, and a run leaves that list as it was: an Action that
    names anything else is not taken.  The agent of agents.ipynb has the
    tools "Search" and "Calculator", the two agents of
    agent_with_memory.ipynb have the tool "Search", and every Action of the
    recorded runs names one of them. *)
Theorem actions_name_supplied_tools :
  (forall World fuel (a : ZeroShotAgent World) q w o events a' w',
     run fuel a q w = (o, events, a', w') ->
     tools a' = tools a
     /\ Forall (fun n => In n (map name (tools a))) (invoked events))
  /\ (forall World llm search_run llm_math_chain_run PREFIX SUFFIX,
        map name (tools (@AgentsNotebook.agent World llm search_run
                           llm_math_chain_run PREFIX SUFFIX))
        = ["Search"; "Calculator"])
  /\ (forall World llm search_run,
        map name (tools (@MemoryNotebook.agent World llm search_run))
        = ["Search"]
        /\ map name (tools (@MemoryNotebook.agent_without_memory
                              World llm search_run))
           = ["Search"])
  /\ Forall (fun run =>
               Forall (fun output =>
                         match extract_tool_and_input output with
                         | Act tool _ => In tool (fst (fst run))
                         | _ => True
                         end)
                      (completions (snd (fst run))))
            recorded_runs.
Proof.
  split.
  { intros World fuel a q w o events a' w' H.
    apply run_iterate in H as [Ht Hi]. split; [exact Ht|].
    eapply iterate_invokes_supplied; eauto. }
  split; [reflexivity|]. split; [split; reflexivity|].
  unfold recorded_runs.
  repeat match goal with
         | |- Forall _ (_ :: _) => apply Forall_cons
         | |- Forall _ [] => apply Forall_nil
         | |- Forall _ ?l =>
             let l' := eval vm_compute in l in change l with l'
         | |- _ => vm_compute; auto
         end.
Qed.

Lemma actions_name_supplied_tools_witness :
  exists o events a' w',
    run 4 Replay.agents_agent AgentsNotebook.run_argument
        (Replay.script [AgentsNotebook.cell4_recording])
    = (o, events, a', w')
    /\ invoked events = ["Search"; "Search"; "Calculator"]
    /\ Forall (fun n => In n ["Search"; "Calculator"]) (invoked events).
Proof.
  eexists _, _, _, _.
  assert (H : run 4 Replay.agents_agent AgentsNotebook.run_argument
                  (Replay.script [AgentsNotebook.cell4_recording])
              = (_, _, _, _)) by (vm_compute; reflexivity).
  split; [exact H|]. split; [reflexivity|].
  exact (proj2 (proj1 actions_name_supplied_tools _ _ _ _ _ _ _ _ _ H)).
Defined.


(** ** Memory *)

Lemma format_segments_occurs kwargs k v : forall segs p,
  In (Field k) segs -> kwargs k = Some v ->
  format_segments kwargs segs = Some p -> occurs v p.
Proof.
  induction segs as [|sg segs IH]; intros p Hin Hk Hf; [destruct Hin|].
  destruct sg as [t|k']; simpl in Hf.
  - destruct (format_segments kwargs segs) as [r|] eqn:Hr; [|discriminate Hf].
    injection Hf as <-. destruct Hin as [Heq|Hin]; [discriminate Heq|].
    apply occurs_append_r. now apply IH.
  - destruct (kwargs k') as [v'|] eqn:Hk'; [|discriminate Hf].
    destruct (format_segments kwargs segs) as [r|] eqn:Hr; [|discriminate Hf].
    injection Hf as <-. destruct Hin as [Heq|Hin].
    + injection Heq as ->. rewrite Hk in Hk'. injection Hk' as <-.
      apply occurs_append_l, occurs_refl.
    + apply occurs_append_r. now apply IH.
Qed.

Lemma save_turn_keeps_buffer m input output :
  occurs (buffer m) (buffer (save_turn m input output)).
Proof. unfold save_turn. cbn [buffer]. auto with text. Qed.

Lemma save_turn_holds_input m input output :
  occurs input (buffer (save_turn m input output)).
Proof. unfold save_turn. cbn [buffer]. auto 6 with text. Qed.

Lemma save_turn_holds_output m input output :
  occurs output (buffer (save_turn m input output)).
Proof. unfold save_turn. cbn [buffer]. auto 8 with text. Qed.

Lemma nth_error_cons_inv {A : Type} (x : A) l k y :
  0 < k -> nth_error (x :: l) k = Some y -> In y l.
Proof.
  destruct k as [|k]; [lia|]. simpl. intros _. apply nth_error_In.
Qed.

Section MemoryFacts.

Variable World : Type.

Implicit Types (c : LLMChain World) (ts : list (Tool World))
  (a : ZeroShotAgent World) (w : World) (m : ConversationBufferMemory).

Lemma chain_prompt_holds_buffer c m segs x p :
  remembering c m segs -> chain_prompt c x = Some p -> occurs (buffer m) p.
Proof.
  intros (Hm & Hs & Hin). unfold chain_prompt, format. rewrite Hs.
  apply format_segments_occurs with (k := memory_key m); [exact Hin|].
  unfold chain_inputs. now rewrite Hm, String.eqb_refl.
Qed.

Lemma save_context_remembering c m segs x output :
  remembering c m segs ->
  remembering (save_context c x output) (save_turn m x output) segs.
Proof.
  intros (Hm & Hs & Hin). unfold save_context. rewrite Hm.
  repeat split; assumption.
Qed.

(** A run of the loop only adds to the memory, and what it adds are its own
    chained input and completions; every prompt it sends holds the memory
    it started with. *)
Lemma iterate_remembering fuel : forall ts c x w o events c' w' m segs,
  remembering c m segs ->
  iterate fuel ts c x w = (o, events, c', w') ->
  exists m',
    remembering c' m' segs
    /\ occurs (buffer m) (buffer m')
    /\ forall p output, In (Completion p output) events ->
         occurs (buffer m) p
         /\ occurs x (buffer m') /\ occurs output (buffer m').
Proof.
  induction fuel as [|fuel IH]; intros ts c x w o events c' w' m segs Hr H.
  - injection H as <- <- <- <-. exists m.
    split; [exact Hr|]. split; [apply occurs_refl|]. intros p output [].
  - cbn [iterate] in H.
    destruct (chain_prompt c x) as [p|] eqn:Hp.
    2:{ injection H as <- <- <- <-. exists m.
        split; [exact Hr|]. split; [apply occurs_refl|].
        intros p output []. }
    unfold bind at 1 in H.
    destruct (llm c p w) as [output w1] eqn:Hl.
    pose proof (save_context_remembering x output Hr) as Hr1.
    pose proof (chain_prompt_holds_buffer _ Hr Hp) as Hbp.
    assert (Hstop : forall o0,
              (o0, [Completion p output], save_context c x output, w1)
              = (o, events, c', w') ->
              exists m',
                remembering c' m' segs
                /\ occurs (buffer m) (buffer m')
                /\ forall p0 output0, In (Completion p0 output0) events ->
                     occurs (buffer m) p0
                     /\ occurs x (buffer m') /\ occurs output0 (buffer m')).
    { intros o0 E. injection E as <- <- <- <-.
      exists (save_turn m x output).
      split; [exact Hr1|]. split; [apply save_turn_keeps_buffer|].
      intros p0 output0 [E|[]]. injection E as <- <-.
      split; [exact Hbp|].
      split; [apply save_turn_holds_input | apply save_turn_holds_output]. }
    destruct (extract_tool_and_input output) as [ans|tool ti|] eqn:He;
      try (eapply Hstop; exact H).
    destruct (find_tool ts tool) as [t|] eqn:Hf;
      [|eapply Hstop; exact H].
    clear Hstop. unfold bind at 1 in H.
    destruct (func t ti w1) as [obs w2] eqn:Ho.
    unfold bind at 1 in H.
    destruct_recursive_call H Hi.
    injection H as <- <- <- <-.
    edestruct IH as (m' & Hr' & Hb & Hev); [exact Hr1 | exact Hi |].
    exists m'. split; [exact Hr'|].
    split; [eapply occurs_trans; [apply save_turn_keeps_buffer | exact Hb]|].
    intros p0 output0 [E|[E|Hin]].
    + injection E as <- <-. split; [exact Hbp|].
      split; (eapply occurs_trans; [|exact Hb]);
        [apply save_turn_holds_input | apply save_turn_holds_output].
    + discriminate E.
    + destruct (Hev _ _ Hin) as (H1 & H2 & H3).
      split; [eapply occurs_trans; [apply save_turn_keeps_buffer | exact H1]|].
      split; [|exact H3].
      eapply occurs_trans; [|exact Hb]. apply save_turn_holds_input.
Qed.

Lemma steps_answer_occurs ts c x w events answer c' w' :
  Steps ts c x w events answer c' w' ->
  exists p output, In (Completion p output) events /\ occurs answer output.
Proof.
  induction 1 as [c x w p output w' answer Hp Hl Hc Hf
                 |c x w p output w1 tool ti t obs w2 events answer c' w'
                    Hp Hl Hc Ha Hf Ho _ (p' & output' & Hin & Hoc)].
  - exists p, output. split; [now left | now apply final_answer_occurs].
  - exists p', output'. split; [now right; right | exact Hoc].
Qed.

Lemma session_cons fuel a q rest w :
  session fuel a (q :: rest) w
  = let '(o, events, a1, w1) := run fuel a q w in
    let '(results, a2, w2) := session fuel a1 rest w1 in
    ((o, events) :: results, a2, w2).
Proof.
  cbn [session]. unfold bind.
  destruct (run fuel a q w) as [[[o events] a1] w1].
  destruct (session fuel a1 rest w1) as [[results a2] w2]. reflexivity.
Qed.

(** After a run, the memory holds the question, and the answer when the
    run returned one. *)
Lemma run_remembering fuel a q w o events a' w' m segs :
  remembering (llm_chain a) m segs ->
  run fuel a q w = (o, events, a', w') ->
  exists m',
    remembering (llm_chain a') m' segs
    /\ occurs (buffer m) (buffer m')
    /\ (forall p output, In (Completion p output) events ->
          occurs (buffer m) p)
    /\ (forall answer, o = Returned answer ->
          occurs q (buffer m') /\ occurs answer (buffer m')).
Proof.
  intros Hr H. apply run_iterate in H as [_ Hi].
  edestruct iterate_remembering as (m' & Hr' & Hb & Hev);
    [exact Hr | exact Hi |].
  exists m'. split; [exact Hr'|]. split; [exact Hb|].
  split; [intros p output Hin; now apply (Hev _ _ Hin)|].
  intros answer ->.
  apply iterate_returned_steps, steps_answer_occurs in Hi
    as (p & output & Hin & Hoc).
  destruct (Hev _ _ Hin) as (_ & Hx & Hout). split.
  - eapply occurs_trans; [|exact Hx].
    unfold first_input. apply occurs_append_l, occurs_refl.
  - eapply occurs_trans; eassumption.
Qed.

Lemma session_remembering fuel : forall qs a w results a' w' m segs,
  remembering (llm_chain a) m segs ->
  session fuel a qs w = (results, a', w') ->
  forall o events p output,
    In (o, events) results -> In (Completion p output) events ->
    occurs (buffer m) p.
Proof.
  induction qs as [|q qs IH]; intros a w results a' w' m segs Hr H.
  - injection H as <- <- <-. intros o events p output [].
  - rewrite session_cons in H.
    destruct (run fuel a q w) as [[[o1 ev1] a1] w1] eqn:Hrun.
    destruct (session fuel a1 qs w1) as [[rs a2] w2] eqn:Hs.
    injection H as <- <- <-.
    edestruct run_remembering as (m1 & Hr1 & Hb & Hev & _);
      [exact Hr | exact Hrun |].
    intros o events p output [E|Hin] Hc.
    + injection E as <- <-. eapply Hev; exact Hc.
    + eapply occurs_trans; [exact Hb|].
      eapply IH; [exact Hr1 | exact Hs | exact Hin | exact Hc].
Qed.

Lemma session_carries_turn fuel : forall qs1 a q qs2 w results a' w' m segs,
  remembering (llm_chain a) m segs ->
  session fuel a (qs1 ++ q :: qs2) w = (results, a', w') ->
  forall answer events,
    nth_error results (length qs1) = Some (Returned answer, events) ->
    forall k o later p output,
      length qs1 < k ->
      nth_error results k = Some (o, later) ->
      In (Completion p output) later ->
      occurs q p /\ occurs answer p.
Proof.
  induction qs1 as [|q0 qs1 IH];
    intros a q qs2 w results a' w' m segs Hr H answer events Hn
           k o later p output Hk Hl Hin;
    cbn [app] in H; rewrite session_cons in H;
    [destruct (run fuel a q w) as [[[o1 ev1] a1] w1] eqn:Hrun;
     destruct (session fuel a1 qs2 w1) as [[rs a2] w2] eqn:Hs
    |destruct (run fuel a q0 w) as [[[o1 ev1] a1] w1] eqn:Hrun;
     destruct (session fuel a1 (qs1 ++ q :: qs2) w1)
       as [[rs a2] w2] eqn:Hs];
    injection H as <- <- <-;
    (edestruct run_remembering as (m1 & Hr1 & Hb & Hev & Hans);
      [exact Hr | exact Hrun |]).
  - simpl in Hn. injection Hn as -> ->.
    destruct (Hans _ eq_refl) as [Hq Ha].
    apply nth_error_cons_inv in Hl; [|exact Hk].
    assert (Hp : occurs (buffer m1) p)
      by (eapply session_remembering;
          [exact Hr1 | exact Hs | exact Hl | exact Hin]).
    split; eapply occurs_trans; eassumption.
  - simpl in Hn, Hk. destruct k as [|k]; [lia|]. simpl in Hl.
    eapply IH with (k := k);
      [exact Hr1 | exact Hs | exact Hn | lia | exact Hl | exact Hin].
Qed.

End MemoryFacts.




(** ** Agents without memory *)

Section NoMemoryFacts.

Variable World : Type.

Implicit Types (c : LLMChain World) (ts : list (Tool World))
  (a : ZeroShotAgent World) (w : World).

Lemma save_context_without_memory c x output :
  memory c = None -> save_context c x output = c.
Proof. unfold save_context. now intros ->. Qed.

Lemma chain_prompt_without_memory c x :
  memory c = None ->
  chain_prompt c x
  = format (prompt c)
           (fun key => if String.eqb key "input" then Some x else None).
Proof. unfold chain_prompt, chain_inputs. now intros ->. Qed.

Lemma iterate_without_memory fuel : forall ts c x w o events c' w',
  memory c = None ->
  iterate fuel ts c x w = (o, events, c', w') -> c' = c.
Proof.
  induction fuel as [|fuel IH]; intros ts c x w o events c' w' Hm H.
  - now injection H as <- <- <- <-.
  - cbn [iterate] in H.
    destruct (chain_prompt c x) as [p|] eqn:Hp;
      [|now injection H as <- <- <- <-].
    unfold bind at 1 in H.
    destruct (llm c p w) as [output w1] eqn:Hl.
    rewrite (@save_context_without_memory c x output Hm) in H.
    destruct (extract_tool_and_input output) as [ans|tool ti|] eqn:He;
      try (now injection H as <- <- <- <-).
    destruct (find_tool ts tool) as [t|] eqn:Hf;
      [|now injection H as <- <- <- <-].
    unfold bind at 1 in H.
    destruct (func t ti w1) as [obs w2] eqn:Ho.
    unfold bind at 1 in H.
    destruct_recursive_call H Hi.
    injection H as <- <- <- <-. eapply IH; [exact Hm | exact Hi].
Qed.

Lemma run_without_memory fuel a q w o events a' w' :
  memory (llm_chain a) = None ->
  run fuel a q w = (o, events, a', w') -> a' = a.
Proof.
  intros Hm H. apply run_iterate in H as [Ht Hi].
  apply iterate_without_memory in Hi; [|exact Hm].
  destruct a as [c ts], a' as [c' ts']. simpl in *. congruence.
Qed.

Lemma session_without_memory fuel : forall qs a w results a' w',
  memory (llm_chain a) = None ->
  session fuel a qs w = (results, a', w') -> a' = a.
Proof.
  induction qs as [|q qs IH]; intros a w results a' w' Hm H.
  - now injection H as <- <- <-.
  - rewrite session_cons in H.
    destruct (run fuel a q w) as [[[o1 ev1] a1] w1] eqn:Hrun.
    destruct (session fuel a1 qs w1) as [[rs a2] w2] eqn:Hs.
    injection H as <- <- <-.
    apply run_without_memory in Hrun; [|exact Hm]. subst a1.
    eapply IH; [exact Hm | exact Hs].
Qed.

End NoMemoryFacts.

(** C9.  The chain of [agent_without_memory] has no memory.  For an agent
    with such a chain, whatever was asked before, in whatever state of the
    world: the agent after the earlier calls is the agent before them, so
    the prompt a call of [run] starts with is the template filled in with
    the question of that call alone, and two calls for the same question
    that meet the same world are the same run, prompt for prompt. *)
Theorem run_without_memory_is_independent :
  (forall World llm search_run,
     memory (llm_chain (@MemoryNotebook.agent_without_memory
                          World llm search_run)) = None)
  /\ (forall World fuel (a : ZeroShotAgent World),
        memory (llm_chain a) = None ->
        forall qs1 qs2 w1 w2 r1 r2 a1 a2 w1' w2',
          session fuel a qs1 w1 = (r1, a1, w1') ->
          session fuel a qs2 w2 = (r2, a2, w2') ->
          forall q,
            chain_prompt (llm_chain a1) (first_input q)
            = chain_prompt (llm_chain a2) (first_input q)
            /\ chain_prompt (llm_chain a1) (first_input q)
               = format (prompt (llm_chain a))
                        (fun key => if String.eqb key "input"
                                    then Some (first_input q) else None)
            /\ forall w, run fuel a1 q w = run fuel a2 q w).
Proof.
  split; [reflexivity|].
  intros World fuel a Hm qs1 qs2 w1 w2 r1 r2 a1 a2 w1' w2' H1 H2 q.
  apply session_without_memory in H1; [|exact Hm].
  apply session_without_memory in H2; [|exact Hm].
  subst a1 a2. split; [reflexivity|]. split; [|reflexivity].
  now apply chain_prompt_without_memory.
Qed.

Lemma run_without_memory_is_independent_witness :
  exists r1 a1 w1 p,
    session 2 Replay.memory_agent_without_memory
            [MemoryNotebook.cell10_argument]
            (Replay.script [MemoryNotebook.cell10_recording;
                            MemoryNotebook.cell11_recording])
    = (r1, a1, w1)
    /\ chain_prompt (llm_chain a1)
                    (first_input MemoryNotebook.cell11_argument)
       = Some p
    /\ chain_prompt (llm_chain Replay.memory_agent_without_memory)
                    (first_input MemoryNotebook.cell11_argument)
       = Some p
    /\ contains "anada" p = false.
Proof.
  eexists _, _, _, _.
  assert (H1 : session 2 Replay.memory_agent_without_memory
                 [MemoryNotebook.cell10_argument]
                 (Replay.script [MemoryNotebook.cell10_recording;
                                 MemoryNotebook.cell11_recording])
               = (_, _, _)) by (vm_compute; reflexivity).
  assert (H2 : session 2 Replay.memory_agent_without_memory []
                 (Replay.script [MemoryNotebook.cell11_recording])
               = (_, _, _)) by (vm_compute; reflexivity).
  split; [exact H1|].
  destruct (proj2 run_without_memory_is_independent _ 2
              Replay.memory_agent_without_memory eq_refl
              _ _ _ _ _ _ _ _ _ _ H1 H2 MemoryNotebook.cell11_argument)
    as (_ & E & _).
  split; [eapply eq_trans; [exact E | vm_compute; reflexivity]|].
  split; vm_compute; reflexivity.
Defined.

(** * Further properties *)

(** ** Templates as format strings *)

Lemma format_segments_succeeds kwargs : forall segs,
  format_segments kwargs segs <> None
  <-> forall k, In k (field_keys segs) -> kwargs k <> None.
Proof.
  induction segs as [|[t|k] segs IH]; simpl.
  - split; [intros _ k [] | discriminate].
  - rewrite <- IH.
    destruct (format_segments kwargs segs); simpl; split; congruence.
  - split.
    + intros H k' [<-|Hin].
      * destruct (kwargs k); congruence.
      * apply IH; [|exact Hin].
        destruct (kwargs k); [|congruence].
        destruct (format_segments kwargs segs); congruence.
    + intros H.
      assert (Hk : kwargs k <> None) by (apply H; now left).
      assert (Hr : format_segments kwargs segs <> None)
        by (apply IH; intros k' Hin; apply H; now right).
      destruct (kwargs k); [|congruence].
      destruct (format_segments kwargs segs); congruence.
Qed.

Lemma format_segments_agree kwargs kwargs' : forall segs,
  (forall k, In k (field_keys segs) -> kwargs' k = kwargs k) ->
  format_segments kwargs' segs = format_segments kwargs segs.
Proof.
  induction segs as [|[t|k] segs IH]; simpl; intros H.
  - reflexivity.
  - now rewrite IH.
  - rewrite (H k) by now left.
    rewrite IH by (intros k' Hin; apply H; now right). reflexivity.
Qed.

Lemma scan_lit_prepend : forall pre t,
  brace_free pre = true ->
  scan in_text (pre ++ t) = lit_prepend pre (scan in_text t).
Proof.
  induction pre as [|c pre IH]; intros t H; [reflexivity|].
  unfold brace_free in H. simpl in H.
  apply andb_prop in H as [Hc Hr].
  apply negb_true_iff, orb_false_elim in Hc as [Ho Hcl].
  simpl. rewrite Ho, Hcl. now rewrite IH.
Qed.

Lemma format_lit_cons kwargs c (r : option (list segment)) :
  match lit_cons c r with
  | Some segs => format_segments kwargs segs
  | None => None
  end
  = option_map (String c)
      match r with
      | Some segs => format_segments kwargs segs
      | None => None
      end.
Proof.
  destruct r as [[|[t|k] segs]|]; simpl; try reflexivity;
    try destruct (kwargs k); simpl; try reflexivity;
    destruct (format_segments kwargs segs); reflexivity.
Qed.

Lemma field_keys_lit_cons c (r : option (list segment)) :
  match lit_cons c r with Some segs => field_keys segs | None => [] end
  = match r with Some segs => field_keys segs | None => [] end.
Proof. now destruct r as [[|[t|k] segs]|]. Qed.

Lemma format_lit_prepend kwargs (r : option (list segment)) : forall pre,
  match lit_prepend pre r with
  | Some segs => format_segments kwargs segs
  | None => None
  end
  = option_map (append pre)
      match r with
      | Some segs => format_segments kwargs segs
      | None => None
      end.
Proof.
  induction pre as [|c pre IH]; simpl.
  - now destruct (match r with Some segs => _ | None => _ end).
  - rewrite format_lit_cons, IH.
    now destruct (match r with Some segs => _ | None => _ end).
Qed.

Lemma field_keys_lit_prepend (r : option (list segment)) : forall pre,
  match lit_prepend pre r with Some segs => field_keys segs | None => [] end
  = match r with Some segs => field_keys segs | None => [] end.
Proof.
  induction pre as [|c pre IH]; simpl; [reflexivity|].
  now rewrite field_keys_lit_cons.
Qed.

(** X1.  A template whose fields are plain names formats exactly when
    every one of its fields is supplied (a field that is not is a
    KeyError), and what it formats to depends on the values of its fields
    only: keyword arguments the template does not mention are ignored. *)
Theorem format_needs_exactly_its_fields :
  forall t segs kwargs,
    parse_template t = Some segs ->
    forallb plain_key (field_keys segs) = true ->
    (str_format t kwargs <> None
     <-> forall k, In k (template_variables t) -> kwargs k <> None)
    /\ forall kwargs',
         (forall k, In k (template_variables t) -> kwargs' k = kwargs k) ->
         str_format t kwargs' = str_format t kwargs.
Proof.
  intros t segs kwargs Hp _. unfold str_format, template_variables.
  rewrite Hp. split.
  - apply format_segments_succeeds.
  - intros kwargs'. apply format_segments_agree.
Qed.

Lemma format_needs_exactly_its_fields_witness :
  str_format MemoryNotebook.suffix
    (fun k => if String.eqb k "input" then Some "hello" else None)
  = None
  /\ str_format MemoryNotebook.suffix_without_memory
       (fun k => if String.eqb k "input" then Some "hello"
                 else if String.eqb k "chat_history" then Some "earlier"
                 else None)
     = str_format MemoryNotebook.suffix_without_memory
         (fun k => if String.eqb k "input" then Some "hello" else None).
Proof.
  split.
  - destruct (str_format MemoryNotebook.suffix
                (fun k => if String.eqb k "input" then Some "hello"
                          else None)) eqn:E; [|reflexivity].
    exfalso.
    assert (Hs : str_format MemoryNotebook.suffix
                   (fun k => if String.eqb k "input" then Some "hello"
                             else None) <> None) by (rewrite E; discriminate).
    eapply (proj1 (proj1 (@format_needs_exactly_its_fields
                            MemoryNotebook.suffix _ _ eq_refl eq_refl)) Hs
              "chat_history").
    + vm_compute. tauto.
    + reflexivity.
  - eapply (proj2 (@format_needs_exactly_its_fields
                     MemoryNotebook.suffix_without_memory _ _
                     eq_refl eq_refl)).
    intros k Hin. vm_compute in Hin. destruct Hin as [<-|[]]. reflexivity.
Defined.

(** X2.  Text without braces in front of a template is copied as it is:
    it adds no field, and the whole formats (or fails) as the template
    does, with the text in front.  This is what lets a prefix and the
    lines of the tools be put before a suffix without touching its
    variables. *)
Theorem text_before_a_template_is_copied :
  forall pre t kwargs,
    brace_free pre = true ->
    str_format (pre ++ t) kwargs = option_map (append pre) (str_format t kwargs)
    /\ template_variables (pre ++ t) = template_variables t.
Proof.
  intros pre t kwargs H. unfold str_format, template_variables, parse_template.
  rewrite scan_lit_prepend by exact H. split.
  - apply format_lit_prepend.
  - apply field_keys_lit_prepend.
Qed.

Lemma text_before_a_template_is_copied_witness :
  brace_free MemoryNotebook.prefix = true
  /\ template_variables (MemoryNotebook.prefix ++ MemoryNotebook.suffix)
     = ["chat_history"; "input"].
Proof.
  split; [reflexivity|].
  rewrite (proj2 (@text_before_a_template_is_copied
                    MemoryNotebook.prefix MemoryNotebook.suffix
                    (fun _ => None) eq_refl)).
  vm_compute. reflexivity.
Defined.

(** ** The two suffixes of agent_with_memory.ipynb *)

(** X3.  Whatever the question text and the history: the suffix of cell 3
    formats to what the suffix of cell 7 formats to with the history and a
    line feed put before "Question: ".  So even with no turn held yet the
    prompt of the agent with memory is not the prompt of the agent without
    memory: it has one line feed more.  Both keep the stray double quote
    after "Begin!". *)
Theorem suffix_with_memory_adds_the_history_line :
  forall history input other,
    let with_history k :=
      if String.eqb k "chat_history" then Some history
      else if String.eqb k "input" then Some input else other k in
    let without k :=
      if String.eqb k "input" then Some input else other k in
    str_format MemoryNotebook.suffix_without_memory without
    = Some ("Begin!" ++ dq ++ nl ++ nl ++ "Question: " ++ input)
    /\ str_format MemoryNotebook.suffix with_history
       = Some ("Begin!" ++ dq ++ nl ++ nl
                 ++ history ++ nl ++ "Question: " ++ input)
    /\ str_format MemoryNotebook.suffix
         (fun k => if String.eqb k "chat_history" then Some EmptyString
                   else without k)
       <> str_format MemoryNotebook.suffix_without_memory without.
Proof.
  intros history input other with_history without.
  assert (E1 : str_format MemoryNotebook.suffix_without_memory without
               = Some ("Begin!" ++ dq ++ nl ++ nl ++ "Question: " ++ input)).
  { unfold str_format.
    set (p := parse_template MemoryNotebook.suffix_without_memory).
    vm_compute in p. subst p. unfold without. simpl.
    now rewrite append_empty_r. }
  assert (E2 : forall h,
             str_format MemoryNotebook.suffix
               (fun k => if String.eqb k "chat_history" then Some h
                         else without k)
             = Some ("Begin!" ++ dq ++ nl ++ nl
                       ++ h ++ nl ++ "Question: " ++ input)).
  { intros h. unfold str_format.
    set (p := parse_template MemoryNotebook.suffix).
    vm_compute in p. subst p. unfold without. simpl.
    now rewrite append_empty_r. }
  split; [exact E1|]. split; [exact (E2 history)|].
  rewrite E1, (E2 EmptyString). simpl. intros H.
  injection H as H. discriminate H.
Qed.

(** ** The stored text and the calls *)

(** X5.  In agent_with_memory.ipynb the text stored with each call of
    [run] opens, after the banner, with the argument of that call.  In
    agents.ipynb it does not: the stored text of cell 4 opens with another
    question and nowhere holds the argument the cell passes to [run]. *)
Theorem stored_text_and_argument :
  Forall (fun ao =>
            String.prefix (strip_sgr entering ++ fst ao ++ nl ++ "Thought:")
                          (strip_sgr (stdout (snd ao))) = true)
         [(MemoryNotebook.cell5_argument, MemoryNotebook.cell5);
          (MemoryNotebook.cell6_argument, MemoryNotebook.cell6);
          (MemoryNotebook.cell10_argument, MemoryNotebook.cell10);
          (MemoryNotebook.cell11_argument, MemoryNotebook.cell11)]
  /\ contains AgentsNotebook.run_argument
              (strip_sgr (stdout AgentsNotebook.cell4)) = false
  /\ String.prefix
       ("What is the age of Olivia Wilde's boyfriend raised to the 0.23 power?"
          ++ nl ++ "Thought:")
       (strip_sgr (stdout AgentsNotebook.cell4)) = true
  /\ AgentsNotebook.run_argument
     = "How old is Olivia Wilde's boyfriend? What is that number raised to the 0.23 power?".
Proof.
  split.
  { repeat (constructor; [vm_compute; reflexivity|]). constructor. }
  repeat split; vm_compute; reflexivity.
Qed.

(** * Rounds, prompts and the recorded runs *)

(** ** Finding text *)

Lemma prefix_split p : forall s,
  String.prefix p s = true <-> exists r, s = p ++ r.
Proof.
  induction p as [|a p IH]; intros s; simpl.
  - split; [intros _; now exists s | intros _; now destruct s].
  - destruct s as [|b s].
    + split; [discriminate | intros [r E]; discriminate E].
    + simpl. destruct (ascii_dec a b) as [->|N].
      * rewrite IH. split; intros [r E]; exists r.
        -- now rewrite E.
        -- now injection E.
      * split; [discriminate|]. intros [r E]. injection E as E _.
        now contradiction N.
Qed.

Lemma drop_append x r : drop (String.length x) (x ++ r) = r.
Proof. induction x as [|c x IH]; simpl; [reflexivity | exact IH]. Qed.

Lemma drop_drop a : forall b s, drop a (drop b s) = drop (b + a) s.
Proof.
  intros b. induction b as [|b IH]; intros s; simpl; [reflexivity|].
  destruct s as [|c s]; [now destruct a | apply IH].
Qed.

Lemma length_take n : forall s, String.length (take n s) <= n.
Proof.
  induction n as [|n IH]; intros [|c s]; simpl; try lia.
  specialize (IH s). lia.
Qed.

Lemma index_0_cons x b s :
  String.index 0 x (String b s)
  = if String.prefix x (String b s) then Some 0
    else match String.index 0 x s with
         | Some n => Some (S n)
         | None => None
         end.
Proof. reflexivity. Qed.

Lemma find_split x : forall s n,
  find x s = Some n ->
  s = take n s ++ x ++ drop (n + String.length x) s.
Proof.
  unfold find. induction s as [|b s IH]; intros n.
  - simpl. destruct x; [|discriminate]. now intros [= <-].
  - rewrite index_0_cons.
    destruct (String.prefix x (String b s)) eqn:P.
    + intros H. injection H as H. subst n.
      apply prefix_split in P as [r E].
      cbn [take Nat.add append]. rewrite E at 2. rewrite drop_append.
      exact E.
    + destruct (String.index 0 x s) as [m|] eqn:I; [|discriminate].
      intros H. injection H as H. subst n.
      cbn [take drop Nat.add append]. f_equal. now apply IH.
Qed.

Lemma find_none x : forall s, find x s = None -> ~ occurs x s.
Proof.
  unfold find. induction s as [|b s IH].
  - simpl. destruct x as [|c x]; [discriminate|].
    intros _ (bf & af & E). destruct bf; discriminate E.
  - rewrite index_0_cons.
    destruct (String.prefix x (String b s)) eqn:P; [discriminate|].
    destruct (String.index 0 x s) as [m|] eqn:I; [discriminate|].
    intros _ (bf & af & E). destruct bf as [|c bf].
    + assert (String.prefix x (String b s) = true)
        by (apply prefix_split; now exists af).
      congruence.
    + injection E as _ E. apply IH; [reflexivity|]. now exists bf, af.
Qed.

Lemma contains_occurs x s : contains x s = true <-> occurs x s.
Proof.
  unfold contains. destruct (find x s) as [n|] eqn:F.
  - split; [|reflexivity]. intros _.
    exists (take n s), (drop (n + String.length x) s). now apply find_split.
  - split; [discriminate|]. intros H. now apply find_none in F.
Qed.

Lemma not_contains_occurs x s : contains x s = false <-> ~ occurs x s.
Proof.
  rewrite <- contains_occurs. destruct (contains x s); split; congruence.
Qed.

Lemma text_after_split marker s r :
  text_after marker s = Some r -> exists before, s = before ++ marker ++ r.
Proof.
  unfold text_after. destruct (find marker s) as [n|] eqn:F; [|discriminate].
  intros [= <-]. exists (take n s). now apply find_split.
Qed.

Lemma first_line_split : forall s,
  exists rest,
    s = first_line s ++ rest
    /\ (rest = EmptyString \/ exists r, rest = nl ++ r).
Proof.
  induction s as [|c s (rest & E & H)]; simpl.
  - exists EmptyString. split; [reflexivity | now left].
  - destruct (Ascii.eqb c "010"%char) eqn:C.
    + apply Ascii.eqb_eq in C. subst c. exists (String "010"%char s).
      split; [reflexivity|]. right. now exists s.
    + exists rest. split; [simpl; now rewrite <- E | exact H].
Qed.

Lemma first_line_no_line_feed : forall s,
  no_line_feed (first_line s) = true.
Proof.
  unfold no_line_feed. induction s as [|c s IH]; simpl; [reflexivity|].
  destruct (Ascii.eqb c "010"%char) eqn:C; simpl; [reflexivity|].
  now rewrite C.
Qed.

Lemma text_after_has_line label output rest :
  text_after label output = Some rest ->
  has_line label (first_line rest) output.
Proof.
  intros H. apply text_after_split in H as [before E].
  destruct (first_line_split rest) as (tail & Er & Ht).
  exists before, tail. split; [|split].
  - now rewrite <- Er.
  - exact Ht.
  - apply first_line_no_line_feed.
Qed.

Lemma action_has_lines output tool tool_input :
  action output = Some (tool, tool_input) ->
  has_line "Action: " tool output
  /\ has_line "Action Input: " tool_input output.
Proof.
  unfold action.
  destruct (text_after "Action: " output) as [a|] eqn:A; [|discriminate].
  destruct (text_after "Action Input: " output) as [i|] eqn:I;
    [|discriminate].
  intros [= <- <-]. split; now apply text_after_has_line.
Qed.

Lemma final_answer_follows_label output answer :
  final_answer output = Some answer ->
  exists before sep,
    output = before ++ FINAL_ANSWER ++ sep ++ answer
    /\ String.length sep <= 2.
Proof.
  unfold final_answer.
  destruct (find FINAL_ANSWER output) as [n|] eqn:F; [|discriminate].
  intros [= <-]. apply find_split in F.
  exists (take n output),
         (take 2 (drop (n + String.length FINAL_ANSWER) output)).
  split; [|apply length_take].
  change (String.length FINAL_ANSWER_ACTION) with 14.
  replace (drop (n + 14) output)
    with (drop 2 (drop (n + String.length FINAL_ANSWER) output)).
  - now rewrite take_drop.
  - rewrite drop_drop. f_equal. simpl. lia.
Qed.

(** ** The last completion of a run *)

Lemma final_completion_nil P : ~ final_completion [] P.
Proof. intros (before & p & output & E & _). now destruct before. Qed.

Lemma final_completion_single p output P :
  final_completion [Completion p output] P <-> P output.
Proof.
  split.
  - intros (before & p' & output' & E & H).
    destruct before as [|e before]; [now injection E as <- <-|].
    injection E as _ E. now destruct before.
  - intros H. now exists [], p, output.
Qed.

Lemma final_completion_more p output tool tool_input observation events P :
  final_completion
    (Completion p output :: Invocation tool tool_input observation :: events)
    P
  <-> final_completion events P.
Proof.
  split.
  - intros (before & p' & output' & E & H).
    destruct before as [|e1 [|e2 before]]; simpl in E.
    + injection E as _ _ E. discriminate E.
    + injection E as _ E _. discriminate E.
    + injection E as _ _ E. now exists before, p', output'.
  - intros (before & p' & output' & -> & H).
    now exists (Completion p output
                  :: Invocation tool tool_input observation :: before),
               p', output'.
Qed.

(** ** Prompts *)

Lemma scan_brace_free post :
  brace_free post = true -> scan in_text post = lit_prepend post (Some []).
Proof.
  intros H. pose proof (scan_lit_prepend post EmptyString H) as E.
  now rewrite append_empty_r in E.
Qed.

Lemma str_format_input_between kwargs pre post :
  brace_free pre = true ->
  brace_free post = true ->
  str_format (pre ++ "{input}" ++ post) kwargs
  = match kwargs "input" with
    | Some v => Some (pre ++ v ++ post)
    | None => None
    end.
Proof.
  intros Hpre Hpost. unfold str_format, parse_template.
  rewrite scan_lit_prepend by exact Hpre. rewrite format_lit_prepend.
  change (scan in_text ("{input}" ++ post))
    with (option_map (cons (Field "input")) (scan in_text post)).
  rewrite scan_brace_free by exact Hpost.
  pose proof (format_lit_prepend kwargs (Some []) post) as E.
  destruct (lit_prepend post (Some [])) as [segs|]; [|discriminate E].
  cbn [option_map format_segments] in *. rewrite E.
  destruct (kwargs "input") as [v|]; [|reflexivity].
  cbn [option_map]. now rewrite append_empty_r.
Qed.

Section RoundFacts.

Variable World : Type.

Implicit Types (c : LLMChain World) (ts : list (Tool World))
  (a : ZeroShotAgent World) (w : World).

Lemma same_setup_refl c : same_setup c c.
Proof. now repeat split. Qed.

Lemma save_context_same_setup c c0 x output :
  same_setup c c0 -> same_setup (save_context c x output) c0.
Proof.
  intros (Hl & Hp & Hk). unfold save_context, same_setup.
  destruct (memory c) as [m|] eqn:Hm; cbn [llm prompt memory].
  - rewrite <- Hk. now repeat split.
  - rewrite Hm. now repeat split.
Qed.

Lemma chain_inputs_input c x :
  option_map memory_key (memory c) <> Some "input" ->
  chain_inputs c x "input" = Some x.
Proof.
  unfold chain_inputs. destruct (memory c) as [m|]; [|reflexivity].
  cbn [option_map]. intros H.
  destruct (String.eqb "input" (memory_key m)) eqn:E; [|reflexivity].
  apply String.eqb_eq in E. congruence.
Qed.

Lemma built_from_holds_input c0 x p segs :
  built_from c0 x p ->
  parse_template (template (prompt c0)) = Some segs ->
  In (Field "input") segs ->
  option_map memory_key (memory c0) <> Some "input" ->
  occurs x p.
Proof.
  intros (c & (Hl & Hp & Hk) & Hc) Hs Hin Hkey.
  unfold chain_prompt, format in Hc. rewrite Hp, Hs in Hc.
  eapply format_segments_occurs; [exact Hin | | exact Hc].
  apply chain_inputs_input. now rewrite Hk.
Qed.

Lemma built_from_exact c0 x p pre post :
  built_from c0 x p ->
  template (prompt c0) = pre ++ "{input}" ++ post ->
  brace_free pre = true ->
  brace_free post = true ->
  option_map memory_key (memory c0) <> Some "input" ->
  p = pre ++ x ++ post.
Proof.
  intros (c & (Hl & Hp & Hk) & Hc) Ht Hpre Hpost Hkey.
  unfold chain_prompt in Hc.
  change (format (prompt c) (chain_inputs c x))
    with (str_format (template (prompt c)) (chain_inputs c x)) in Hc.
  rewrite Hp, Ht, str_format_input_between in Hc by assumption.
  rewrite chain_inputs_input in Hc by now rewrite Hk.
  now injection Hc.
Qed.

(** A run of the loop, whatever its outcome, is made of rounds; it has
    returned exactly when its last completion holds "Final Answer", and
    the answer is what follows that label. *)
Lemma iterate_rounds c0 fuel : forall ts c x w o events c' w',
  same_setup c c0 ->
  iterate fuel ts c x w = (o, events, c', w') ->
  Rounds c0 ts x w events w'
  /\ ((exists answer, o = Returned answer)
      <-> final_completion events (occurs FINAL_ANSWER))
  /\ (forall answer, o = Returned answer ->
        final_completion events (answer_after_label answer)).
Proof.
  induction fuel as [|fuel IH]; intros ts c x w o events c' w' Hc H.
  - injection H as <- <- <- <-. split; [constructor|]. split.
    + split; [intros [answer E]; discriminate E|].
      intros F. now apply final_completion_nil in F.
    + intros answer E. discriminate E.
  - cbn [iterate] in H.
    destruct (chain_prompt c x) as [p|] eqn:Hp.
    2:{ injection H as <- <- <- <-. split; [constructor|]. split.
        - split; [intros [answer E]; discriminate E|].
          intros F. now apply final_completion_nil in F.
        - intros answer E. discriminate E. }
    unfold bind at 1 in H.
    destruct (llm c p w) as [output w1] eqn:Hl.
    assert (Hb : built_from c0 x p) by (now exists c).
    assert (Hl0 : llm c0 p w = (output, w1))
      by (destruct Hc as (E & _); now rewrite <- E).
    destruct (extract_tool_and_input output) as [ans|tool ti|] eqn:He.
    + injection H as <- <- <- <-.
      apply extract_finish_inv in He as [Hf Ha].
      split; [now apply rounds_last|]. split.
      * split; [|intros _; now exists ans].
        intros _. apply final_completion_single. now apply contains_occurs.
      * intros answer [= <-]. apply final_completion_single.
        now apply final_answer_follows_label.
    + apply extract_act_inv in He as [Hf Ha].
      destruct (find_tool ts tool) as [t|] eqn:Ht.
      2:{ injection H as <- <- <- <-.
          split; [now apply rounds_last|]. split.
          - split; [intros [answer E]; discriminate E|].
            intros F. apply final_completion_single, contains_occurs in F.
            congruence.
          - intros answer E. discriminate E. }
      unfold bind at 1 in H.
      destruct (func t ti w1) as [obs w2] eqn:Ho.
      unfold bind at 1 in H.
      destruct_recursive_call H Hi.
      injection H as <- <- <- <-.
      edestruct IH as (HR & Hiff & Hans);
        [apply save_context_same_setup; exact Hc | exact Hi |].
      apply find_some in Ht as [Hin Hn]. apply String.eqb_eq in Hn.
      apply action_has_lines in Ha as [Ha1 Ha2].
      split; [|split].
      * eapply rounds_more; eauto. now apply not_contains_occurs.
      * rewrite final_completion_more. exact Hiff.
      * intros answer E. rewrite final_completion_more. now apply Hans.
    + injection H as <- <- <- <-.
      split; [now apply rounds_last|]. split.
      * split; [intros [answer E]; discriminate E|].
        intros F. apply final_completion_single in F.
        apply contains_occurs, final_answer_iff_contains in F as [ans F].
        unfold extract_tool_and_input in He. now rewrite F in He.
      * intros answer E. discriminate E.
Qed.

End RoundFacts.

(** The outcome of a run does not depend on the bound, once the bound is
    large enough for the run to end. *)
Lemma iterate_more_fuel (World : Type) fuel :
  forall fuel' (ts : list (Tool World)) c x w o events c' w',
    fuel <= fuel' ->
    iterate fuel ts c x w = (o, events, c', w') ->
    o <> Unfinished ->
    iterate fuel' ts c x w = (o, events, c', w').
Proof.
  induction fuel as [|fuel IH]; intros fuel' ts c x w o events c' w' Hle H Ho.
  - injection H as <- <- <- <-. now contradiction Ho.
  - destruct fuel' as [|fuel']; [lia|]. cbn [iterate] in *.
    destruct (chain_prompt c x) as [p|]; [|exact H].
    unfold bind at 1 in H. unfold bind at 1.
    destruct (llm c p w) as [output w1].
    destruct (extract_tool_and_input output) as [ans|tool ti|];
      try exact H.
    destruct (find_tool ts tool) as [t|]; [|exact H].
    unfold bind at 1 in H. unfold bind at 1.
    destruct (func t ti w1) as [obs w2].
    unfold bind at 1 in H. unfold bind at 1.
    destruct_recursive_call H Hi.
    injection H as <- <- <- <-.
    erewrite IH; [reflexivity | lia | exact Hi | exact Ho].
Qed.



(** ** Memory without its key *)


(** ** The value of a run and its transcript *)

(** C6.  For every executed call of [run] in the two notebooks, the value
    of the cell is exactly the text that follows "Final Answer:" in what
    the run printed: on that line, after the one blank that separates the
    label from the text, and to the end of the line, colour codes not
    being text. *)
Theorem result_is_the_printed_final_answer :
  Forall (fun run =>
            option_map lstrip
              (printed_after "Final Answer:" (stdout (snd run)))
            = Some (result (snd run))
            /\ printed_after "Final Answer:" (stdout (snd run))
               = Some (" " ++ result (snd run)))
         recorded_runs.
Proof.
  unfold recorded_runs.
  repeat (constructor; [split; vm_compute; reflexivity|]). constructor.
Qed.

(** ** The recorded runs, replayed and checked *)

(** X4.  In a world that hands out the recorded completions, and whose
    tools hand out the recorded observations only when called by the name
    and on the input that the transcript's Action and Action Input lines
    show, each recorded run is carried out to the value its cell shows:
    nothing is left over and no tool was called otherwise, the run has not
    ended a round earlier, every prompt ends with the text the transcript
    shows up to its completion, and that text, with the completions and
    observations as the loop appends them, is the stored text of the cell
    (for agents.ipynb, with the output the Calculator itself printed cut
    out). *)
Theorem recorded_runs_replay_checked :
  (fst (fst (fst Checked.agents_run)) = Returned (result AgentsNotebook.cell4)
   /\ Checked.spent (snd Checked.agents_run) = true
   /\ contains (strip_sgr AgentsNotebook.calculator_stdout)
               (strip_sgr (stdout AgentsNotebook.cell4)) = true
   /\ Checked.follows EmptyString EmptyString EmptyString
        (Checked.without (strip_sgr AgentsNotebook.calculator_stdout)
                         (strip_sgr (stdout AgentsNotebook.cell4)))
        (first_input (question AgentsNotebook.cell4_recording))
        (snd (fst (fst Checked.agents_run))) = true
   /\ fst (fst (fst (run 3 Checked.agents_agent
                         (question AgentsNotebook.cell4_recording)
                         (Checked.script
                            [(Checked.agents_cell4_actions,
                              AgentsNotebook.cell4_recording)]))))
      = Unfinished)
  /\ (map fst (fst (fst Checked.memory_session))
      = [Returned (result MemoryNotebook.cell5);
         Returned (result MemoryNotebook.cell6)]
      /\ Checked.spent (snd Checked.memory_session) = true
      /\ map (fun aro => Checked.follows_cell (fst (fst aro)) (snd (fst aro))
                                              (snd aro))
             (combine (combine [MemoryNotebook.cell5_argument;
                                MemoryNotebook.cell6_argument]
                               (fst (fst Checked.memory_session)))
                      [MemoryNotebook.cell5; MemoryNotebook.cell6])
         = [true; true]
      /\ fst (fst (fst (run 1 Checked.memory_agent
                            MemoryNotebook.cell5_argument
                            (Checked.script
                               [(Checked.memory_cell5_actions,
                                 MemoryNotebook.cell5_recording)]))))
         = Unfinished)
  /\ (map fst (fst (fst Checked.without_memory_session))
      = [Returned (result MemoryNotebook.cell10);
         Returned (result MemoryNotebook.cell11)]
      /\ Checked.spent (snd Checked.without_memory_session) = true
      /\ map (fun aro => Checked.follows_cell (fst (fst aro)) (snd (fst aro))
                                              (snd aro))
             (combine (combine [MemoryNotebook.cell10_argument;
                                MemoryNotebook.cell11_argument]
                               (fst (fst Checked.without_memory_session)))
                      [MemoryNotebook.cell10; MemoryNotebook.cell11])
         = [true; true]
      /\ fst (fst (fst (run 1 Checked.memory_agent_without_memory
                            MemoryNotebook.cell10_argument
                            (Checked.script
                               [(Checked.memory_cell10_actions,
                                 MemoryNotebook.cell10_recording)]))))
         = Unfinished).
Proof. repeat split; vm_compute; reflexivity. Qed.
